(** * Onshape assembly to MuJoCo MJCF: the converter and the mate analysis

    A shallow embedding of [explore/converter.py] (the function
    [transform_to_pos_quat] and the script body [main] with its two
    formatting helpers) and, of [explore/explore_assembly.py], of the mate
    loop and the type summary of [analyze_for_mujoco] and of
    [explore_transforms].

    Data is modelled as the Python code has it:
    - the entries of a transform are JSON numbers written with a fraction
      or an exponent (or Infinity, NaN), which Python reads as binary64
      values: Rocq's primitive [float]; the position arrays then have the
      dtype float64 and numpy's element-wise subtraction is
      [PrimFloat.sub].  Entries written as JSON integers, which numpy
      would hold as int64, are outside this embedding;
    - Python [str] values are [string]s (byte strings; [str.lower] acts on
      the ASCII letters);
    - a Python [dict] is an association list in insertion order, where
      storing under an existing key replaces the value in place;
    - an exception is a value [Raise e] of the [result] type, and the
      statements of [main] are sequenced with the bind of that type;
    - [scipy]'s [Rotation.from_matrix(rot).as_quat()] is a library routine
      outside the repository: it is a parameter of the development. *)

From Stdlib Require Import ZArith List String Ascii Bool Lia Floats DecimalString DecimalN.
Import ListNotations.
Local Open Scope string_scope.

(** ** Strings *)

Definition lower_ascii (c : ascii) : ascii :=
  let n := nat_of_ascii c in
  if andb (Nat.leb 65 n) (Nat.leb n 90) then ascii_of_nat (n + 32) else c.

(** [s.lower()] *)
Fixpoint lower (s : string) : string :=
  match s with
  | EmptyString => EmptyString
  | String c s' => String (lower_ascii c) (lower s')
  end.

Fixpoint starts_with (p s : string) : bool :=
  match p, s with
  | EmptyString, _ => true
  | String _ _, EmptyString => false
  | String a p', String b s' => if Ascii.eqb a b then starts_with p' s' else false
  end.

(** [sub in s] *)
Fixpoint contains (sub s : string) : bool :=
  orb (starts_with sub s)
      (match s with
       | EmptyString => false
       | String _ s' => contains sub s'
       end).

(** Number of positions of [s] at which the text [p] begins. *)
Fixpoint occ (p s : string) : nat :=
  match s with
  | EmptyString => 0
  | String _ s' => (if starts_with p s then 1 else 0) + occ p s'
  end.

(** [s] without its prefix [p], when it starts with it. *)
Fixpoint strip_prefix (p s : string) : option string :=
  match p, s with
  | EmptyString, _ => Some s
  | String _ _, EmptyString => None
  | String a p', String b s' => if Ascii.eqb a b then strip_prefix p' s' else None
  end.

(** The text that follows the first occurrence of [p] in [s]. *)
Fixpoint after (p s : string) : option string :=
  match strip_prefix p s with
  | Some r => Some r
  | None => match s with
            | EmptyString => None
            | String _ s' => after p s'
            end
  end.

(** The text of [s] before the first character [c]. *)
Fixpoint upto (c : ascii) (s : string) : option string :=
  match s with
  | EmptyString => None
  | String a s' =>
      if Ascii.eqb a c then Some EmptyString
      else option_map (String a) (upto c s')
  end.

Fixpoint has_char (c : ascii) (s : string) : bool :=
  match s with
  | EmptyString => false
  | String a s' => orb (Ascii.eqb a c) (has_char c s')
  end.

(** ** Exceptions *)

Inductive exn : Type :=
| KeyError (key : option string)   (* the missing key; [None] is Python's None *)
| IndexError
| ValueError.

Inductive result (A : Type) : Type :=
| Ok (a : A)
| Raise (e : exn).
Arguments Ok {A} a.
Arguments Raise {A} e.

Definition bind {A B} (r : result A) (k : A -> result B) : result B :=
  match r with
  | Ok a => k a
  | Raise e => Raise e
  end.

Notation "x <- r ;; k" := (bind r (fun x => k))
  (at level 61, r at next level, right associativity).
Notation "r ;;; k" := (bind r (fun _ => k))
  (at level 61, right associativity).

Fixpoint for_each {A} (body : A -> result unit) (l : list A) : result unit :=
  match l with
  | [] => Ok tt
  | x :: l' => body x ;;; for_each body l'
  end.

(** ** Dictionaries *)

Definition dict (V : Type) : Type := list (string * V).

Fixpoint dict_get {V} (d : dict V) (k : string) : option V :=
  match d with
  | [] => None
  | (k', v) :: d' => if String.eqb k' k then Some v else dict_get d' k
  end.

(** [d[k] = v] *)
Fixpoint dict_set {V} (d : dict V) (k : string) (v : V) : dict V :=
  match d with
  | [] => [(k, v)]
  | (k', v') :: d' =>
      if String.eqb k' k then (k', v) :: d' else (k', v') :: dict_set d' k v
  end.

(** [d[k]] where [k] may be None *)
Definition subscript {V} (d : dict V) (k : option string) : result V :=
  match k with
  | None => Raise (KeyError None)
  | Some s => match dict_get d s with
              | Some v => Ok v
              | None => Raise (KeyError k)
              end
  end.

(** [l[i]] for a non-negative [i] *)
Definition index {A} (l : list A) (i : nat) : result A :=
  match nth_error l i with
  | Some a => Ok a
  | None => Raise IndexError
  end.

(** ** Formatting a float with [:.6f] *)

Definition round_half_even (num den : Z) : Z :=
  let q := (num / den)%Z in
  let r := (num mod den)%Z in
  match (2 * r ?= den)%Z with
  | Lt => q
  | Gt => (q + 1)%Z
  | Eq => if Z.even q then q else (q + 1)%Z
  end.

(** The integer nearest to [m * 2^e * 10^6], ties to even. *)
Definition scaled6 (m : positive) (e : Z) : Z :=
  if (0 <=? e)%Z then (Zpos m * 2 ^ e * 10 ^ 6)%Z
  else round_half_even (Zpos m * 10 ^ 6) (2 ^ (- e)).

Definition digit (d : Z) : ascii := ascii_of_nat (48 + Z.to_nat d).

Definition int_digits (n : Z) : string :=
  NilZero.string_of_uint (N.to_uint (Z.to_N n)).

Definition frac6 (n : Z) : string :=
  String (digit ((n / 100000) mod 10))
 (String (digit ((n / 10000) mod 10))
 (String (digit ((n / 1000) mod 10))
 (String (digit ((n / 100) mod 10))
 (String (digit ((n / 10) mod 10))
 (String (digit (n mod 10)) EmptyString))))).

Definition sign_text (s : bool) : string := if s then "-" else "".

(** [f"{x:.6f}"] for a binary64 [x]: correctly rounded, six digits after
    the point. *)
Definition fmt6 (x : float) : string :=
  match Prim2SF x with
  | S754_nan => "nan"
  | S754_infinity s => sign_text s ++ "inf"
  | S754_zero s => sign_text s ++ "0.000000"
  | S754_finite s m e =>
      let n := scaled6 m e in
      sign_text s ++ int_digits (n / 10 ^ 6) ++ "." ++ frac6 (n mod 10 ^ 6)
  end.

Definition is_finite (x : float) : bool :=
  match Prim2SF x with
  | S754_zero _ | S754_finite _ _ _ => true
  | _ => false
  end.

Definition is_digit (c : ascii) : bool :=
  let n := nat_of_ascii c in andb (Nat.leb 48 n) (Nat.leb n 57).

Fixpoint all_chars (f : ascii -> bool) (s : string) : bool :=
  match s with
  | EmptyString => true
  | String c s' => andb (f c) (all_chars f s')
  end.

Definition all_digits (s : string) : bool := all_chars is_digit s.

Fixpoint skip_digits (s : string) : string :=
  match s with
  | EmptyString => EmptyString
  | String c s' => if is_digit c then skip_digits s' else s
  end.

Definition fixed6_body (body : string) : bool :=
  match body with
  | String c _ =>
      andb (is_digit c)
           (match skip_digits body with
            | String "." f => andb (Nat.eqb (String.length f) 6) (all_digits f)
            | _ => false
            end)
  | EmptyString => false
  end.

(** An optional minus sign, one or more digits, a point, exactly six
    digits. *)
Definition is_fixed6 (s : string) : bool :=
  fixed6_body (match s with
               | String "-" s' => s'
               | _ => s
               end).

(** ** Numeric vectors *)

Definition vec3 : Type := (float * float * float)%type.
Definition quat : Type := (float * float * float * float)%type.

(** [a - b] on two numpy arrays of three binary64 values (dtype
    float64) *)
Definition vsub (a b : vec3) : vec3 :=
  let '(ax, ay, az) := a in
  let '(bx, by_, bz) := b in
  (PrimFloat.sub ax bx, PrimFloat.sub ay by_, PrimFloat.sub az bz).

Definition vzero : vec3 := (0%float, 0%float, 0%float).

Definition fmt_pos (p : vec3) : string :=
  let '(p0, p1, p2) := p in
  fmt6 p0 ++ " " ++ fmt6 p1 ++ " " ++ fmt6 p2.

Definition fmt_quat (q : quat) : string :=
  let '(q0, q1, q2, q3) := q in
  fmt6 q0 ++ " " ++ fmt6 q1 ++ " " ++ fmt6 q2 ++ " " ++ fmt6 q3.

(** ** The input documents *)

(** An entry of [rootAssembly.instances]. *)
Record Instance : Type := {
  inst_id : string;
  inst_name : string
}.

(** An entry of [rootAssembly.occurrences]. *)
Record Occurrence : Type := {
  occ_path : list string;
  occ_fixed : bool;
  occ_transform : list float
}.

Record MatedCS : Type := {
  zAxis : list float;
  origin : list float
}.

Record MatedEntity : Type := {
  matedOccurrence : list string;
  matedCS : MatedCS
}.

(** The [featureData] of an entry of [rootAssembly.features].  [mateLimits]
    stands for the min/max limit values a mate record carries; the
    converter has no statement that reads them. *)
Record FeatureData : Type := {
  mateType : string;
  matedEntities : list MatedEntity;
  mateLimits : option (float * float)
}.

Record RootAssembly : Type := {
  instances : list Instance;
  occurrences : list Occurrence;
  features : list FeatureData
}.

(** An entry of the mesh manifest [08_exported_meshes.json]. *)
Record MeshEntry : Type := {
  instanceId : string;
  filename : string
}.

(** ** The text of the scene file *)

Inductive field : Type :=
| FMesh (file : string)
| FPos (p : vec3)
| FQuat (q : quat).

(** The f-string of [main]: literal text and replacement fields. *)
Inductive piece : Type :=
| Lit (s : string)
| Field (f : field).

Definition render_field (f : field) : string :=
  match f with
  | FMesh file => file
  | FPos p => fmt_pos p
  | FQuat q => fmt_quat q
  end.

Definition render (p : piece) : string :=
  match p with
  | Lit s => s
  | Field f => render_field f
  end.

Fixpoint flatten (l : list piece) : string :=
  match l with
  | [] => EmptyString
  | p :: l' => render p ++ flatten l'
  end.

Definition dquote : ascii := ascii_of_nat 34.

(** The literal text of the template is written with an apostrophe where
    the source has a double quote (the template has no apostrophe of its
    own); [dq] puts the double quotes back. *)
Fixpoint dq (s : string) : string :=
  match s with
  | EmptyString => EmptyString
  | String c s' => String (if Ascii.eqb c "'" then dquote else c) (dq s')
  end.

Definition T (s : string) : piece := Lit (dq s).

Definition mjcf_pieces (motor_mesh horn_mesh joint1_mesh joint2_mesh : string)
    (motor_pos : vec3) (motor_quat : quat) (j2_rel : vec3) (j2_quat : quat)
    (horn_rel : vec3) (horn_quat : quat) (j1_rel : vec3) (j1_quat : quat)
    : list piece :=
  [
    T "<mujoco model='onshape_robot'>
  <compiler angle='radian' meshdir='output/meshes' autolimits='true'/>
  <option gravity='0 0 -9.81' timestep='0.002'/>
  
  <visual>
    <global offwidth='1280' offheight='720'/>
  </visual>
  
  <asset>
    <texture name='grid' type='2d' builtin='checker' rgb1='0.1 0.2 0.3' rgb2='0.2 0.3 0.4' width='512' height='512'/>
    <material name='grid_mat' texture='grid' texrepeat='5 5' reflectance='0.2'/>
    <material name='pla_orange' rgba='1.0 0.6 0.1 1'/>
    <material name='pla_gray' rgba='0.3 0.3 0.3 1'/>
    <material name='pla_blue' rgba='0.2 0.4 0.8 1'/>
    <mesh name='Motor' file='";
    Field (FMesh motor_mesh);
    T "'/>
    <mesh name='Horn' file='";
    Field (FMesh horn_mesh);
    T "'/>
    <mesh name='Joint_1' file='";
    Field (FMesh joint1_mesh);
    T "'/>
    <mesh name='Joint_2' file='";
    Field (FMesh joint2_mesh);
    T "'/>
  </asset>
  
  <worldbody>
    <geom name='ground' type='plane' size='1 1 0.1' pos='0 0 0' material='grid_mat'/>
    <light name='light' pos='0.3 0.3 0.5' dir='-0.3 -0.3 -0.5'/>
    
    <!-- Motor (base) -->
    <body name='motor' pos='";
    Field (FPos motor_pos);
    T "' quat='";
    Field (FQuat motor_quat);
    T "'>
      <inertial pos='0 0 0' mass='0.055' diaginertia='0.00001 0.00001 0.00001'/>
      <geom type='mesh' mesh='Motor' material='pla_gray'/>
      
      <!-- Joint #2 (fixed to motor) -->
      <body name='joint_2' pos='";
    Field (FPos j2_rel);
    T "'>
        <inertial pos='0 0 0' mass='0.01' diaginertia='0.000001 0.000001 0.000001'/>
        <geom type='mesh' mesh='Joint_2' material='pla_orange' 
              quat='";
    Field (FQuat j2_quat);
    T "'/>
      </body>
      
      <!-- Horn (rotates on motor via servo) -->
      <body name='horn' pos='";
    Field (FPos horn_rel);
    T "'>
        <inertial pos='0 0 0' mass='0.003' diaginertia='0.000001 0.000001 0.000001'/>
        <joint name='servo_rotation' type='hinge' axis='0 -1 0' range='-1.5708 1.5708' damping='0.01'/>
        <geom type='mesh' mesh='Horn' material='pla_blue'
              quat='";
    Field (FQuat horn_quat);
    T "'/>
        
        <!-- Joint #1 (attached to horn) -->
        <body name='joint_1' pos='";
    Field (FPos j1_rel);
    T "'>
          <inertial pos='0 0 0' mass='0.01' diaginertia='0.000001 0.000001 0.000001'/>
          <geom type='mesh' mesh='Joint_1' material='pla_orange'
                quat='";
    Field (FQuat j1_quat);
    T "'/>
        </body>
      </body>
    </body>
  </worldbody>
  
  <actuator>
    <motor name='servo' joint='servo_rotation' gear='100' ctrllimited='true' ctrlrange='-1 1'/>
  </actuator>
</mujoco>
"
  ].

(** What lines 98-130 of [main] compute: the world pose of the motor and,
    for the three other parts, the offset from the parent and the
    orientation. *)
Record Layout : Type := {
  L_motor_mesh : string; L_horn_mesh : string;
  L_joint1_mesh : string; L_joint2_mesh : string;
  L_motor_pos : vec3; L_motor_quat : quat;
  L_j2_rel : vec3; L_j2_quat : quat;
  L_horn_rel : vec3; L_horn_quat : quat;
  L_j1_rel : vec3; L_j1_quat : quat
}.

Definition mjcf (l : Layout) : string :=
  flatten (mjcf_pieces (L_motor_mesh l) (L_horn_mesh l) (L_joint1_mesh l)
             (L_joint2_mesh l) (L_motor_pos l) (L_motor_quat l)
             (L_j2_rel l) (L_j2_quat l) (L_horn_rel l) (L_horn_quat l)
             (L_j1_rel l) (L_j1_quat l)).

(** ** [converter.py] *)

Record NamedIds : Type := {
  motor_id : option string;
  horn_id : option string;
  joint1_id : option string;
  joint2_id : option string
}.

(** Python's truth value of [fixed_id]: None and the empty string are
    false. *)
Definition truthy (k : option string) : bool :=
  match k with
  | None => false
  | Some EmptyString => false
  | Some _ => true
  end.

Section Converter.

(** [Rotation.from_matrix(rot).as_quat()] of scipy: the quaternion
    [(x, y, z, w)] of the 3x3 matrix given by its rows, or [None] where
    scipy raises. *)
Variable as_quat : list (list float) -> option quat.

Definition transform_to_pos_quat (t : list float) : result (vec3 * quat) :=
  t3 <- index t 3 ;; t7 <- index t 7 ;; t11 <- index t 11 ;;
  t0 <- index t 0 ;; t4 <- index t 4 ;; t8 <- index t 8 ;;
  t1 <- index t 1 ;; t5 <- index t 5 ;; t9 <- index t 9 ;;
  t2 <- index t 2 ;; t6 <- index t 6 ;; t10 <- index t 10 ;;
  match as_quat [[t0; t4; t8]; [t1; t5; t9]; [t2; t6; t10]] with
  | None => Raise ValueError
  | Some (x, y, z, w) => Ok ((t3, t7, t11), (w, x, y, z))
  end.

(** [{inst['id']: inst for inst in root['instances']}] *)
Definition instances_dict (root : RootAssembly) : dict Instance :=
  fold_left (fun d inst => dict_set d (inst_id inst) inst) (instances root) [].

(** [{occ['path'][0]: occ for occ in root['occurrences']}] *)
Fixpoint occurrences_from (l : list Occurrence) (d : dict Occurrence)
    : result (dict Occurrence) :=
  match l with
  | [] => Ok d
  | o :: l' => k <- index (occ_path o) 0 ;; occurrences_from l' (dict_set d k o)
  end.

Definition occurrences_dict (root : RootAssembly) : result (dict Occurrence) :=
  occurrences_from (occurrences root) [].

(** [{m['instanceId']: m['filename'] for m in meshes}] *)
Definition mesh_map (meshes : list MeshEntry) : dict string :=
  fold_left (fun d m => dict_set d (instanceId m) (filename m)) meshes [].

(** Lines 53-57: the id of the first occurrence whose [fixed] flag is
    set. *)
Fixpoint find_fixed (l : list Occurrence) : result (option string) :=
  match l with
  | [] => Ok None
  | o :: l' =>
      if occ_fixed o then k <- index (occ_path o) 0 ;; Ok (Some k)
      else find_fixed l'
  end.

(** Lines 61-64: the id of the first instance whose name mentions the
    motor. *)
Fixpoint first_motor (items : dict Instance) : option string :=
  match items with
  | [] => None
  | (id, inst) :: items' =>
      if contains "motor" (lower (inst_name inst)) then Some id
      else first_motor items'
  end.

(** Lines 53-64. *)
Definition select_fixed_id (root : RootAssembly) : result (option string) :=
  fixed_id <- find_fixed (occurrences root) ;;
  if truthy fixed_id then Ok fixed_id
  else match first_motor (instances_dict root) with
       | Some id => Ok (Some id)
       | None => Ok fixed_id
       end.

(** Lines 53-70: the base part, its name and its pose. *)
Definition base_part (root : RootAssembly) (insts : dict Instance)
    (occs : dict Occurrence) : result (option string) :=
  fixed_id <- select_fixed_id root ;;
  subscript insts fixed_id ;;;
  base_occ <- subscript occs fixed_id ;;
  transform_to_pos_quat (occ_transform base_occ) ;;;
  Ok fixed_id.

(** Lines 73-76: the world position of every part is printed. *)
Definition report_positions (insts : dict Instance) (occs : dict Occurrence)
    : result unit :=
  for_each (fun item : string * Occurrence =>
              subscript insts (Some (fst item)) ;;;
              transform_to_pos_quat (occ_transform (snd item)) ;;;
              Ok tt) occs.

(** Lines 79-94: the cylindrical mates are printed with the axis and
    the origin of the first connector. *)
Definition report_mate (insts : dict Instance) (fd : FeatureData) : result unit :=
  if String.eqb (mateType fd) "CYLINDRICAL" then
    let ents := matedEntities fd in
    e0 <- index ents 0 ;;
    horn <- index (matedOccurrence e0) 0 ;;
    e1 <- index ents 1 ;;
    motor <- index (matedOccurrence e1) 0 ;;
    subscript insts (Some horn) ;;;
    subscript insts (Some motor) ;;;
    Ok tt
  else Ok tt.

(** Lines 103-112: the four parts are found by name; a later instance
    with a matching name replaces an earlier one. *)
Definition name_step (ids : NamedIds) (item : string * Instance) : NamedIds :=
  let id := fst item in
  let name := lower (inst_name (snd item)) in
  if contains "motor" name then
    {| motor_id := Some id; horn_id := horn_id ids;
       joint1_id := joint1_id ids; joint2_id := joint2_id ids |}
  else if contains "horn" name then
    {| motor_id := motor_id ids; horn_id := Some id;
       joint1_id := joint1_id ids; joint2_id := joint2_id ids |}
  else if orb (contains "joint #1" name) (contains "joint_1" name) then
    {| motor_id := motor_id ids; horn_id := horn_id ids;
       joint1_id := Some id; joint2_id := joint2_id ids |}
  else if orb (contains "joint #2" name) (contains "joint_2" name) then
    {| motor_id := motor_id ids; horn_id := horn_id ids;
       joint1_id := joint1_id ids; joint2_id := Some id |}
  else ids.

Definition named_ids (insts : dict Instance) : NamedIds :=
  fold_left name_step insts
    {| motor_id := None; horn_id := None; joint1_id := None; joint2_id := None |}.

(** The world pose of the part [id]:
    [transform_to_pos_quat(occurrences[id]['transform'])]. *)
Definition world_pose (occs : dict Occurrence) (id : option string)
    : result (vec3 * quat) :=
  o <- subscript occs id ;;
  transform_to_pos_quat (occ_transform o).

(** Lines 98-154: the poses of the four parts, the offsets from the
    parents and the mesh files. *)
Definition layout (insts : dict Instance) (occs : dict Occurrence)
    (meshes : dict string) : result Layout :=
  let ids := named_ids insts in
  motor <- world_pose occs (motor_id ids) ;;
  horn <- world_pose occs (horn_id ids) ;;
  j1 <- world_pose occs (joint1_id ids) ;;
  j2 <- world_pose occs (joint2_id ids) ;;
  let horn_rel := vsub (fst horn) (fst motor) in
  let j2_rel := vsub (fst j2) (fst motor) in
  let j1_rel := vsub (fst j1) (fst horn) in
  motor_mesh <- subscript meshes (motor_id ids) ;;
  horn_mesh <- subscript meshes (horn_id ids) ;;
  joint1_mesh <- subscript meshes (joint1_id ids) ;;
  joint2_mesh <- subscript meshes (joint2_id ids) ;;
  Ok {| L_motor_mesh := motor_mesh; L_horn_mesh := horn_mesh;
        L_joint1_mesh := joint1_mesh; L_joint2_mesh := joint2_mesh;
        L_motor_pos := fst motor; L_motor_quat := snd motor;
        L_j2_rel := j2_rel; L_j2_quat := snd j2;
        L_horn_rel := horn_rel; L_horn_quat := snd horn;
        L_j1_rel := j1_rel; L_j1_quat := snd j1 |}.

(** [main]: the text written to [robot.xml], or the exception that ends
    the run before the file is opened. *)
Definition main (root : RootAssembly) (meshes : list MeshEntry) : result string :=
  let insts := instances_dict root in
  occs <- occurrences_dict root ;;
  base_part root insts occs ;;;
  report_positions insts occs ;;;
  for_each (report_mate insts) (features root) ;;;
  l <- layout insts occs (mesh_map meshes) ;;
  Ok (mjcf l).

End Converter.

(** ** Reading the scene text back *)

(** The attribute text of the first element with tag [tag]: what stands
    between the opening of the tag and the next closing bracket. *)
Definition element (tag out : string) : option string :=
  match after ("<" ++ tag ++ " ") out with
  | Some r => upto ">" r
  | None => None
  end.

(** The value of the attribute [a] in the attribute text [elt]. *)
Definition attribute (a elt : string) : option string :=
  match after (a ++ "=" ++ String dquote "") elt with
  | Some r => upto dquote r
  | None => None
  end.

Definition element_attribute (tag a out : string) : option string :=
  match element tag out with
  | Some elt => attribute a elt
  | None => None
  end.

Fixpoint split_on (c : ascii) (s : string) : list string :=
  match s with
  | EmptyString => [EmptyString]
  | String a s' =>
      if Ascii.eqb a c then EmptyString :: split_on c s'
      else match split_on c s' with
           | [] => [String a EmptyString]
           | w :: ws => String a w :: ws
           end
  end.

Fixpoint digits_value (s : string) (acc : Z) : option Z :=
  match s with
  | EmptyString => Some acc
  | String c s' =>
      if is_digit c
      then digits_value s' (10 * acc + (Z.of_nat (nat_of_ascii c) - 48))%Z
      else None
  end.

Definition parse_int (s : string) : option Z :=
  match s with
  | EmptyString => None
  | String "-" EmptyString => None
  | String "-" s' => option_map Z.opp (digits_value s' 0)
  | _ => digits_value s 0
  end.

Definition float_of_Z (z : Z) : float :=
  match z with
  | Z0 => 0%float
  | Zpos _ => PrimFloat.of_uint63 (Uint63.of_Z z)
  | Zneg p => PrimFloat.opp (PrimFloat.of_uint63 (Uint63.of_Z (Zpos p)))
  end.

Fixpoint parse_ints (l : list string) : option (list float) :=
  match l with
  | [] => Some []
  | w :: l' =>
      match parse_int w, parse_ints l' with
      | Some z, Some zs => Some (float_of_Z z :: zs)
      | _, _ => None
      end
  end.

(** The numbers written in the [axis] attribute of the first joint
    element of the scene text. *)
Definition joint_axis (out : string) : option (list float) :=
  match element_attribute "joint" "axis" out with
  | Some a => parse_ints (split_on " " a)
  | None => None
  end.

(** Numeric equality of two vectors, component by component. *)
Fixpoint vec_eqb (a b : list float) : bool :=
  match a, b with
  | [], [] => true
  | x :: a', y :: b' => andb (PrimFloat.eqb x y) (vec_eqb a' b')
  | _, _ => false
  end.

(** ** [explore_assembly.py]: the mates of [analyze_for_mujoco] *)

Module Explore.

(** An entry of a feature's [parameters]; a field that the JSON object
    does not have is [None]. *)
Record MateParameter : Type := {
  parameterId : option string;
  value : option string;
  expression : option string
}.

(** An entry of [features['features']]. *)
Record Feature : Type := {
  featureType : option string;
  name : option string;
  suppressed : bool;
  parameters : list MateParameter
}.

Record Mapping : Type := {
  mujoco : option string;      (* [None] is Python's None *)
  description : string
}.

Definition mate_mapping : dict Mapping :=
  [ ("FASTENED", {| mujoco := None; description := "Welded (no joint needed)" |});
    ("REVOLUTE", {| mujoco := Some "hinge"; description := "Single rotation axis" |});
    ("SLIDER", {| mujoco := Some "slide"; description := "Single translation axis" |});
    ("CYLINDRICAL", {| mujoco := Some "hinge+slide";
                       description := "Rotation + translation on same axis" |});
    ("BALL", {| mujoco := Some "ball"; description := "3-DOF spherical joint" |});
    ("PLANAR", {| mujoco := Some "free (constrained)";
                  description := "Complex - may need multiple joints" |});
    ("PARALLEL", {| mujoco := None; description := "Orientation constraint only" |}) ].

Definition unknown_mapping : Mapping :=
  {| mujoco := Some "unknown"; description := "Unknown mate type" |}.

Record JointInfo : Type := {
  ji_name : string;
  onshape_type : string;
  mujoco_type : option string;
  ji_description : string;
  limits : dict string;
  has_limits : bool
}.

Record Analysis : Type := {
  joints : list JointInfo;
  potential_issues : list string
}.

Definition get {A} (o : option A) (default : A) : A :=
  match o with
  | Some a => a
  | None => default
  end.

(** Lines 396-401: one parameter of the mate. *)
Definition scan_parameter (st : string * dict string) (param : MateParameter)
    : string * dict string :=
  let pid := get (parameterId param) "" in
  if String.eqb pid "mateType" then (get (value param) "UNKNOWN", snd st)
  else if contains "limit" (lower pid)
       then (fst st, dict_set (snd st) pid
                       (get (value param) (get (expression param) "")))
       else st.

(** Lines 394-401: the type tag and the limits of a mate. *)
Definition mate_type_and_limits (feat : Feature) : string * dict string :=
  fold_left scan_parameter (parameters feat) ("UNKNOWN", []).

Definition classify (mate_type : string) : Mapping :=
  get (dict_get mate_mapping mate_type) unknown_mapping.

Definition option_string_eqb (a b : option string) : bool :=
  match a, b with
  | Some x, Some y => String.eqb x y
  | None, None => true
  | _, _ => false
  end.

(** Lines 383-416: the body of the loop over the features. *)
Definition analyze_feature (an : Analysis) (feat : Feature) : Analysis :=
  if negb (option_string_eqb (featureType feat) (Some "mate")) then an
  else if suppressed feat then an
  else
    let name := get (name feat) "Unnamed" in
    let mate_type := fst (mate_type_and_limits feat) in
    let limits := snd (mate_type_and_limits feat) in
    let mapping := classify mate_type in
    let joint_info :=
      {| ji_name := name; onshape_type := mate_type;
         mujoco_type := mujoco mapping; ji_description := description mapping;
         limits := limits;
         has_limits := match limits with [] => false | _ => true end |} in
    {| joints := joints an ++ [joint_info];
       potential_issues :=
         if option_string_eqb (mujoco mapping) (Some "unknown")
         then potential_issues an
                ++ ["Unknown mate type: " ++ mate_type ++ " in " ++ name]
         else potential_issues an |}.

(** The [joints] and [potential_issues] of the analysis of a feature
    list. *)
Definition analyze_mates (feature_list : list Feature) : Analysis :=
  fold_left analyze_feature feature_list
    {| joints := []; potential_issues := [] |}.

(** Lines 419-423: the number of joints of each Onshape type. *)
Definition count_step (d : dict nat) (j : JointInfo) : dict nat :=
  dict_set d (onshape_type j) (get (dict_get d (onshape_type j)) 0 + 1).

Definition mate_type_counts (js : list JointInfo) : dict nat :=
  fold_left count_step js [].

(** *** [explore_transforms] *)

(** An entry of [rootAssembly.occurrences] as [explore_transforms] reads
    it: a key that the JSON object does not have gives the empty list, or
    false for [hidden].  The same three fields are the value stored for
    the occurrence. *)
Record PlacedOccurrence : Type := {
  po_path : list string;
  po_transform : list float;
  po_hidden : bool
}.

(** ['/'.join(path)] *)
Fixpoint join_path (path : list string) : string :=
  match path with
  | [] => EmptyString
  | [p] => p
  | p :: rest => p ++ "/" ++ join_path rest
  end.

(** Lines 256-262: the position of a top-level occurrence is printed from
    the values 12, 13 and 14 of a non-empty transform. *)
Definition print_position (o : PlacedOccurrence) : result unit :=
  if Nat.eqb (List.length (po_path o)) 1 then
    match po_transform o with
    | [] => Ok tt
    | _ :: _ =>
        index (po_transform o) 12 ;;;
        index (po_transform o) 13 ;;;
        index (po_transform o) 14 ;;;
        Ok tt
    end
  else Ok tt.

(** Lines 243-262: the loop over the occurrences. *)
Fixpoint explore_transforms_from (l : list PlacedOccurrence)
    (transforms : dict PlacedOccurrence) : result (dict PlacedOccurrence) :=
  match l with
  | [] => Ok transforms
  | o :: l' =>
      let transforms := dict_set transforms (join_path (po_path o)) o in
      print_position o ;;;
      explore_transforms_from l' transforms
  end.

(** The dictionary that [explore_transforms] saves and returns. *)
Definition explore_transforms (occurrences : list PlacedOccurrence)
    : result (dict PlacedOccurrence) :=
  explore_transforms_from occurrences [].

(** A top-level occurrence whose transform is not empty and stops before
    the value 14. *)
Definition short_transform (o : PlacedOccurrence) : bool :=
  andb (Nat.eqb (List.length (po_path o)) 1)
       (andb (Nat.ltb 0 (List.length (po_transform o)))
             (Nat.ltb (List.length (po_transform o)) 15)).

(** *** The mates that the analysis keeps *)

(** The features that reach line 393: mates that are not suppressed. *)
Definition active_mate (feat : Feature) : bool :=
  andb (option_string_eqb (featureType feat) (Some "mate"))
       (negb (suppressed feat)).

Definition mate_type_of (feat : Feature) : string :=
  fst (mate_type_and_limits feat).

Definition joint_info_of (feat : Feature) : JointInfo :=
  {| ji_name := get (name feat) "Unnamed";
     onshape_type := mate_type_of feat;
     mujoco_type := mujoco (classify (mate_type_of feat));
     ji_description := description (classify (mate_type_of feat));
     limits := snd (mate_type_and_limits feat);
     has_limits := match snd (mate_type_and_limits feat) with
                   | [] => false
                   | _ => true
                   end |}.

Definition is_unknown (feat : Feature) : bool :=
  option_string_eqb (mujoco (classify (mate_type_of feat))) (Some "unknown").

Definition issue_of (feat : Feature) : string :=
  "Unknown mate type: " ++ mate_type_of feat ++ " in " ++ get (name feat) "Unnamed".

Definition mapped_types : list string :=
  ["FASTENED"; "REVOLUTE"; "SLIDER"; "CYLINDRICAL"; "BALL"; "PLANAR"; "PARALLEL"].

Definition is_mate_type (param : MateParameter) : bool :=
  String.eqb (get (parameterId param) "") "mateType".

Definition is_limit (param : MateParameter) : bool :=
  contains "limit" (lower (get (parameterId param) "")).

Definition count_type (t : string) (js : list JointInfo) : nat :=
  List.length (filter (fun j => String.eqb (onshape_type j) t) js).

Definition sum_values (d : dict nat) : nat :=
  fold_right (fun kv s => snd kv + s) 0 d.

Definition screw_mate : Feature :=
  {| featureType := Some "mate"; name := Some "Screw 1"; suppressed := false;
     parameters := [ {| parameterId := Some "mateType"; value := Some "SCREW";
                        expression := None |} ] |}.

End Explore.

(** ** The kinematic tree of the scene *)

(** The four body elements of the template. *)
Inductive body : Type := Motor | Joint2 | Horn | Joint1.

(** The nesting of the body elements: [joint_2] and [horn] stand inside
    [motor], [joint_1] inside [horn]. *)
Definition parent (b : body) : option body :=
  match b with
  | Motor => None
  | Joint2 => Some Motor
  | Horn => Some Motor
  | Joint1 => Some Horn
  end.

Definition body_id (ids : NamedIds) (b : body) : option string :=
  match b with
  | Motor => motor_id ids
  | Joint2 => joint2_id ids
  | Horn => horn_id ids
  | Joint1 => joint1_id ids
  end.

(** The value of the [pos] attribute of a body element. *)
Definition local_pos (l : Layout) (b : body) : vec3 :=
  match b with
  | Motor => L_motor_pos l
  | Joint2 => L_j2_rel l
  | Horn => L_horn_rel l
  | Joint1 => L_j1_rel l
  end.

Definition finite3 (p : vec3) : bool :=
  let '(x, y, z) := p in
  andb (is_finite x) (andb (is_finite y) (is_finite z)).

(** ** Sample inputs *)

Definition identity_rows : list (list float) :=
  [[1; 0; 0]; [0; 1; 0]; [0; 0; 1]]%float.

(** An instance of the scipy routine for the examples: the quaternion
    (0, 0, 0, 1) of the identity matrix; every other matrix is refused. *)
Definition sample_as_quat (m : list (list float)) : option quat :=
  match m with
  | [r0; r1; r2] =>
      if andb (vec_eqb r0 [1; 0; 0]%float)
              (andb (vec_eqb r1 [0; 1; 0]%float) (vec_eqb r2 [0; 0; 1]%float))
      then Some (0, 0, 0, 1)%float
      else None
  | _ => None
  end.

(** The transform with no rotation and the translation [(x, y, z)]. *)
Definition translation (x y z : float) : list float :=
  [1; 0; 0; x; 0; 1; 0; y; 0; 0; 1; z; 0; 0; 0; 1]%float.

(** The binary64 value of the JSON number 0.1. *)
Definition tenth : float := 0x1.999999999999ap-4%float.

Definition connector (axis : list float) : MatedCS :=
  {| zAxis := axis; origin := [0; 0; 0]%float |}.

Definition mate (type : string) (axis : list float) (a b : string) : FeatureData :=
  {| mateType := type;
     matedEntities := [ {| matedOccurrence := [a]; matedCS := connector axis |};
                        {| matedOccurrence := [b]; matedCS := connector axis |} ];
     mateLimits := None |}.

(** Four parts: the fixed motor at the origin, the horn at (0.1, 0, 0),
    one static part on each, and one cylindrical mate between horn and
    motor. *)
Definition sample_assembly : RootAssembly :=
  {| instances :=
       [ {| inst_id := "M"; inst_name := "Motor" |};
         {| inst_id := "H"; inst_name := "Horn" |};
         {| inst_id := "A"; inst_name := "Joint #1" |};
         {| inst_id := "B"; inst_name := "Joint #2" |} ];
     occurrences :=
       [ {| occ_path := ["M"]; occ_fixed := true;
            occ_transform := translation 0 0 0 |};
         {| occ_path := ["H"]; occ_fixed := false;
            occ_transform := translation tenth 0 0 |};
         {| occ_path := ["A"]; occ_fixed := false;
            occ_transform := translation tenth 0 0.25 |};
         {| occ_path := ["B"]; occ_fixed := false;
            occ_transform := translation 0 0.5 0 |} ];
     features := [ mate "CYLINDRICAL" [0; 1; 0]%float "H" "M" ] |}.

Definition sample_meshes : list MeshEntry :=
  [ {| instanceId := "M"; filename := "M.stl" |};
    {| instanceId := "H"; filename := "H.stl" |};
    {| instanceId := "A"; filename := "A.stl" |};
    {| instanceId := "B"; filename := "B.stl" |} ].

Definition sample_layout : Layout :=
  {| L_motor_mesh := "M.stl"; L_horn_mesh := "H.stl";
     L_joint1_mesh := "A.stl"; L_joint2_mesh := "B.stl";
     L_motor_pos := (0, 0, 0)%float; L_motor_quat := (1, 0, 0, 0)%float;
     L_j2_rel := (0, 0.5, 0)%float; L_j2_quat := (1, 0, 0, 0)%float;
     L_horn_rel := (tenth, 0, 0)%float; L_horn_quat := (1, 0, 0, 0)%float;
     L_j1_rel := (0, 0, 0.25)%float; L_j1_quat := (1, 0, 0, 0)%float |}.

(** ** Counting in a text with replacement fields *)

(** No end of [l] is the beginning of an unfinished occurrence of [p]:
    what follows [l] cannot complete an occurrence that begins in [l]. *)
Fixpoint no_partial (p l : string) : bool :=
  match l with
  | EmptyString => true
  | String _ l' =>
      andb (orb (starts_with p l) (negb (starts_with l p))) (no_partial p l')
  end.

Fixpoint lits_clean (p : string) (l : list piece) : bool :=
  match l with
  | [] => true
  | Lit s :: l' => andb (no_partial p s) (lits_clean p l')
  | Field _ :: l' => lits_clean p l'
  end.

(** The occurrences of [p] in the literal text of a template. *)
Fixpoint lit_occ (p : string) (l : list piece) : nat :=
  match l with
  | [] => 0
  | Lit s :: l' => occ p s + lit_occ p l'
  | Field _ :: l' => lit_occ p l'
  end.

(** The first occurrence of [p] in the literal text of a template: the
    rest of that literal and the pieces behind it. *)
Fixpoint after_in (p : string) (l : list piece) : option (string * list piece) :=
  match l with
  | [] => None
  | Lit s :: l' =>
      match after p s with
      | Some r => Some (r, l')
      | None => after_in p l'
      end
  | Field _ :: l' => after_in p l'
  end.

Definition element_in (tag : string) (l : list piece) : option string :=
  match after_in ("<" ++ tag ++ " ") l with
  | Some (r, _) => upto ">" r
  | None => None
  end.

(** No replacement field of the template renders the character [c]. *)
Definition fields_free (c : ascii) (l : list piece) : Prop :=
  Forall (fun x => match x with
                   | Lit _ => True
                   | Field f => has_char c (render_field f) = false
                   end) l.

(** The characters that [fmt6] can write. *)
Definition fmt_char (c : ascii) : bool :=
  orb (is_digit c)
      (orb (Ascii.eqb c "-") (orb (Ascii.eqb c ".")
      (orb (Ascii.eqb c "n") (orb (Ascii.eqb c "a")
      (orb (Ascii.eqb c "i") (Ascii.eqb c "f")))))).

Definition lt_free (l : Layout) : Prop :=
  has_char "<" (L_motor_mesh l) = false /\
  has_char "<" (L_horn_mesh l) = false /\
  has_char "<" (L_joint1_mesh l) = false /\
  has_char "<" (L_joint2_mesh l) = false.

(** The attribute text of the joint element and of the motor element of the
    template. *)
Definition servo_joint : string :=
  dq "name='servo_rotation' type='hinge' axis='0 -1 0' range='-1.5708 1.5708' damping='0.01'/".

Definition servo_motor : string :=
  dq "name='servo' joint='servo_rotation' gear='100' ctrllimited='true' ctrlrange='-1 1'/".

(** ** Reading a dictionary built from a list *)

(** The last element of [l] whose key is [k]. *)
Definition last_by {A} (key : A -> string) (k : string) (l : list A) : option A :=
  fold_left (fun acc a => if String.eqb (key a) k then Some a else acc) l None.

(** No file name of the manifest has the character that opens a tag. *)
Definition manifest_clean (meshes : list MeshEntry) : Prop :=
  Forall (fun m => has_char "<" (filename m) = false) meshes.

(** ** The names of the parts *)

(** The branch of lines 105-112 that a lower-case name takes. *)
Definition name_class (name : string) : option body :=
  if contains "motor" name then Some Motor
  else if contains "horn" name then Some Horn
  else if orb (contains "joint #1" name) (contains "joint_1" name) then Some Joint1
  else if orb (contains "joint #2" name) (contains "joint_2" name) then Some Joint2
  else None.

Definition item_class (item : string * Instance) : option body :=
  name_class (lower (inst_name (snd item))).

(** The key of an occurrence in the dictionary of line 49. *)
Definition occ_key (o : Occurrence) : string := hd EmptyString (occ_path o).

Definition has_path (o : Occurrence) : bool :=
  match occ_path o with
  | [] => false
  | _ :: _ => true
  end.

(** What the scene is computed from: the path and the transform of an
    occurrence, not its [fixed] flag. *)
Definition placement (o : Occurrence) : list string * list float :=
  (occ_path o, occ_transform o).

Definition without_mates (root : RootAssembly) : RootAssembly :=
  {| instances := instances root; occurrences := occurrences root; features := [] |}.

(** The number that a list of decimal digits denotes, most significant
    digit first, after the digits already read as [acc]. *)
Fixpoint uint_value (d : Decimal.uint) (acc : Z) : Z :=
  match d with
  | Decimal.Nil => acc
  | Decimal.D0 d => uint_value d (10 * acc)
  | Decimal.D1 d => uint_value d (10 * acc + 1)
  | Decimal.D2 d => uint_value d (10 * acc + 2)
  | Decimal.D3 d => uint_value d (10 * acc + 3)
  | Decimal.D4 d => uint_value d (10 * acc + 4)
  | Decimal.D5 d => uint_value d (10 * acc + 5)
  | Decimal.D6 d => uint_value d (10 * acc + 6)
  | Decimal.D7 d => uint_value d (10 * acc + 7)
  | Decimal.D8 d => uint_value d (10 * acc + 8)
  | Decimal.D9 d => uint_value d (10 * acc + 9)
  end%Z.

(** ** The attributes of the body elements *)

Definition body_name (b : body) : string :=
  match b with
  | Motor => "motor"
  | Joint2 => "joint_2"
  | Horn => "horn"
  | Joint1 => "joint_1"
  end.

(** The opening of the body element [b] up to the value of [pos]. *)
Definition body_opening (b : body) : string :=
  "<body name=" ++ String dquote (body_name b)
    ++ String dquote (" pos=" ++ String dquote "").

(** The value of the [pos] attribute of the body element [b] in the scene
    text. *)
Definition body_pos_text (b : body) (out : string) : option string :=
  match after (body_opening b) out with
  | Some r => upto dquote r
  | None => None
  end.

(** The replacement field that directly follows the first occurrence of
    [p], when [p] ends a literal of the template and a double quote closes
    the field. *)
Definition field_after (p : string) (l : list piece) : option field :=
  match after_in p l with
  | Some (EmptyString, Field f :: Lit (String c _) :: _) =>
      if Ascii.eqb c dquote then Some f else None
  | _ => None
  end.

(** The orientation written for a body: on the body element of the motor,
    on the geom of the other three. *)
Definition local_quat (l : Layout) (b : body) : quat :=
  match b with
  | Motor => L_motor_quat l
  | Joint2 => L_j2_quat l
  | Horn => L_horn_quat l
  | Joint1 => L_j1_quat l
  end.

Definition mesh_file (l : Layout) (b : body) : string :=
  match b with
  | Motor => L_motor_mesh l
  | Joint2 => L_joint2_mesh l
  | Horn => L_horn_mesh l
  | Joint1 => L_joint1_mesh l
  end.

Definition is_motor (inst : Instance) : bool :=
  contains "motor" (lower (inst_name inst)).

(** ** The joint element, the orientations and the mesh files in the text *)

(** The joint element of the template, as it stands in line 176. *)
Definition servo_joint_tag : string := "<joint " ++ servo_joint ++ ">".

(** Some literal of the template contains the text [p]. *)
Definition lit_contains (p : string) (l : list piece) : bool :=
  existsb (fun x => match x with
                    | Lit s => contains p s
                    | Field _ => false
                    end) l.

Definition mesh_name (b : body) : string :=
  match b with
  | Motor => "Motor"
  | Joint2 => "Joint_2"
  | Horn => "Horn"
  | Joint1 => "Joint_1"
  end.

(** The opening of the mesh asset of the body [b] up to the value of
    [file]. *)
Definition mesh_opening (b : body) : string :=
  "<mesh name=" ++ String dquote (mesh_name b)
    ++ String dquote (" file=" ++ String dquote "").

(** The value of the [file] attribute of the mesh asset of [b] in the scene
    text. *)
Definition mesh_file_text (b : body) (out : string) : option string :=
  match after (mesh_opening b) out with
  | Some r => upto dquote r
  | None => None
  end.

(** The element that carries the orientation of [b]: the body element for
    the motor, the geom with the mesh of the part for the other three. *)
Definition quat_opening (b : body) : string :=
  match b with
  | Motor => body_opening Motor
  | _ => "<geom type=" ++ String dquote ("mesh" ++ String dquote
           (" mesh=" ++ String dquote (mesh_name b ++ String dquote "")))
  end.

Definition quat_pattern : string := "quat=" ++ String dquote "".

(** The value of the first [quat] attribute behind the opening of the
    element that carries the orientation of [b]. *)
Definition quat_text (b : body) (out : string) : option string :=
  match after (quat_opening b) out with
  | Some r =>
      match after quat_pattern r with
      | Some r' => upto dquote r'
      | None => None
      end
  | None => None
  end.

(** Every replacement field of [l] is a position or an orientation. *)
Fixpoint numeric_fields (l : list piece) : bool :=
  match l with
  | [] => true
  | Field (FMesh _) :: _ => false
  | _ :: l' => numeric_fields l'
  end.

(** The field that follows the first [quat_pattern] behind the first
    occurrence of [p] in the template. *)
Definition quat_field_after (p : string) (l : list piece) : option field :=
  match after_in p l with
  | Some (r, rest) =>
      if andb (numeric_fields rest) (lits_clean quat_pattern (Lit r :: rest))
      then field_after quat_pattern (Lit r :: rest)
      else None
  | None => None
  end.

(** No file name of the manifest has the character that opens a tag or the
    double quote that closes an attribute. *)
Definition manifest_plain (meshes : list MeshEntry) : Prop :=
  Forall (fun m => has_char "<" (filename m) = false
                   /\ has_char dquote (filename m) = false) meshes.

(** ** Parts at one position *)

(** The rows of a quarter turn about the z axis. *)
Definition quarter_turn_rows : list (list float) :=
  [[0; -1; 0]; [1; 0; 0]; [0; 0; 1]]%float.

(** The transform with a quarter turn about z and the translation
    [(x, y, z)]. *)
Definition turned (x y z : float) : list float :=
  [0; 1; 0; x; -1; 0; 0; y; 0; 0; 1; z; 0; 0; 0; 1]%float.

Definition rows_eqb (m : list (list float)) (rows : list (list float)) : bool :=
  match m, rows with
  | [a0; a1; a2], [b0; b1; b2] =>
      andb (vec_eqb a0 b0) (andb (vec_eqb a1 b1) (vec_eqb a2 b2))
  | _, _ => false
  end.

(** A second instance of the scipy routine for the examples: it knows the
    identity and the quarter turn about z, whose quaternion has the
    components 0, 0, sqrt(1/2), sqrt(1/2). *)
Definition turning_as_quat (m : list (list float)) : option quat :=
  if rows_eqb m identity_rows then Some (0, 0, 0, 1)%float
  else if rows_eqb m quarter_turn_rows
       then Some (0%float, 0%float, PrimFloat.sqrt 0.5, PrimFloat.sqrt 0.5)
       else None.

Definition four_parts (motor horn joint1 joint2 : list float) : RootAssembly :=
  {| instances := instances sample_assembly;
     occurrences :=
       [ {| occ_path := ["M"]; occ_fixed := true; occ_transform := motor |};
         {| occ_path := ["H"]; occ_fixed := false; occ_transform := horn |};
         {| occ_path := ["A"]; occ_fixed := false; occ_transform := joint1 |};
         {| occ_path := ["B"]; occ_fixed := false; occ_transform := joint2 |} ];
     features := features sample_assembly |}.

(** The horn stands at the position of the motor, a quarter turn away. *)
Definition stacked_assembly : RootAssembly :=
  four_parts (translation 0.25 0 0) (turned 0.25 0 0)
             (translation 0.25 0 0.5) (translation 0 0.5 0).

(** The motor and the horn both stand at an infinite x, as a document with
    the number Infinity gives it. *)
Definition infinite_assembly : RootAssembly :=
  four_parts (translation infinity 0 0) (translation infinity 0 0)
             (translation 0 0 0.25) (translation 0 0.5 0).

Definition stacked_layout : Layout :=
  {| L_motor_mesh := "M.stl"; L_horn_mesh := "H.stl";
     L_joint1_mesh := "A.stl"; L_joint2_mesh := "B.stl";
     L_motor_pos := (0.25, 0, 0)%float; L_motor_quat := (1, 0, 0, 0)%float;
     L_j2_rel := (-0.25, 0.5, 0)%float; L_j2_quat := (1, 0, 0, 0)%float;
     L_horn_rel := (0, 0, 0)%float;
     L_horn_quat := (PrimFloat.sqrt 0.5, 0%float, 0%float, PrimFloat.sqrt 0.5);
     L_j1_rel := (0, 0, 0.5)%float; L_j1_quat := (1, 0, 0, 0)%float |}.

Definition infinite_layout : Layout :=
  {| L_motor_mesh := "M.stl"; L_horn_mesh := "H.stl";
     L_joint1_mesh := "A.stl"; L_joint2_mesh := "B.stl";
     L_motor_pos := (infinity, 0, 0)%float; L_motor_quat := (1, 0, 0, 0)%float;
     L_j2_rel := vsub (0, 0.5, 0)%float (infinity, 0, 0)%float;
     L_j2_quat := (1, 0, 0, 0)%float;
     L_horn_rel := vsub (infinity, 0, 0)%float (infinity, 0, 0)%float;
     L_horn_quat := (1, 0, 0, 0)%float;
     L_j1_rel := vsub (0, 0, 0.25)%float (infinity, 0, 0)%float;
     L_j1_quat := (1, 0, 0, 0)%float |}.

(** ** Further sample inputs *)

Definition with_features (root : RootAssembly) (fs : list FeatureData) : RootAssembly :=
  {| instances := instances root; occurrences := occurrences root; features := fs |}.

(** The sample assembly with a revolute mate in place of the cylindrical
    one; the axis of its connectors is (0, 1, 0). *)
Definition revolute_assembly : RootAssembly :=
  with_features sample_assembly [ mate "REVOLUTE" [0; 1; 0]%float "H" "M" ].

(** Every connector of every mate of [root] has the axis [axis]. *)
Definition connector_axes (root : RootAssembly) (axis : list float) : Prop :=
  forall fd e, In fd (features root) -> In e (matedEntities fd) ->
               zAxis (matedCS e) = axis.


(** The mate without its limits. *)
Definition erase_limits (fd : FeatureData) : FeatureData :=
  {| mateType := mateType fd; matedEntities := matedEntities fd; mateLimits := None |}.

(** Two assemblies that differ at most in the limits of their mates. *)
Definition same_but_limits (root root' : RootAssembly) : Prop :=
  instances root = instances root' /\
  occurrences root = occurrences root' /\
  map erase_limits (features root) = map erase_limits (features root').

Definition with_limits (lo hi : float) (fd : FeatureData) : FeatureData :=
  {| mateType := mateType fd; matedEntities := matedEntities fd;
     mateLimits := Some (lo, hi) |}.





(** The binary64 value of the JSON number 1e308. *)
Definition huge : float := 0x1.1ccf385ebc8ap+1023%float.

(** The motor and the horn stand far apart on the x axis, at coordinates
    that are finite binary64 numbers. *)
Definition far_assembly : RootAssembly :=
  four_parts (translation huge 0 0) (translation (- huge) 0 0)
             (translation 0 0 0.25) (translation 0 0.5 0).

(** What [f"{x:.6f}"] writes: six decimals for a finite number, and the
    names of the values that are not finite. *)
Definition six_decimals (x : float) : Prop :=
  if is_finite x then is_fixed6 (fmt6 x) = true
  else fmt6 x = "nan" \/ fmt6 x = "inf" \/ fmt6 x = "-inf".

(** ** The last element of a kind *)

(** The text that follows the last occurrence of [p] in [s]. *)
Fixpoint last_after (p s : string) : option string :=
  match s with
  | EmptyString => strip_prefix p s
  | String _ s' =>
      match last_after p s' with
      | Some r => Some r
      | None => strip_prefix p s
      end
  end.

(** The attribute text of the last element with tag [tag]. *)
Definition last_element (tag out : string) : option string :=
  match last_after ("<" ++ tag ++ " ") out with
  | Some r => upto ">" r
  | None => None
  end.

Definition last_element_attribute (tag a out : string) : option string :=
  match last_element tag out with
  | Some elt => attribute a elt
  | None => None
  end.

(** The pieces of the template up to the last mesh file of the asset
    section, and the pieces behind it: the bodies and the actuator. *)
Definition asset_pieces (l : list piece) : list piece := firstn 8 l.

Definition body_pieces (l : list piece) : list piece := skipn 8 l.

(** * Properties *)

(** ** The [result] type *)

Lemma bind_Ok {A B} (r : result A) (k : A -> result B) (b : B) :
  bind r k = Ok b -> exists a, r = Ok a /\ k a = Ok b.
Proof.
  destruct r as [a|e]; simpl; intro H; [exists a; auto | discriminate].
Qed.

Ltac bind_inv H :=
  let a := fresh "a" in
  let Ha := fresh "Ha" in
  apply bind_Ok in H; destruct H as [a [Ha H]].

Lemma main_Ok (as_quat : list (list float) -> option quat)
    (root : RootAssembly) (meshes : list MeshEntry) (out : string) :
  main as_quat root meshes = Ok out ->
  exists occs l,
    occurrences_dict root = Ok occs /\
    layout as_quat (instances_dict root) occs (mesh_map meshes) = Ok l /\
    out = mjcf l.
Proof.
  unfold main. intro H.
  bind_inv H. bind_inv H. bind_inv H. bind_inv H. bind_inv H.
  injection H as <-. eauto.
Qed.

Lemma sample_main :
  main sample_as_quat sample_assembly sample_meshes = Ok (mjcf sample_layout).
Proof. vm_compute. reflexivity. Qed.

(** ** Subtraction of binary64 numbers *)

Lemma sub_diag_finite (x : float) :
  is_finite x = true -> PrimFloat.sub x x = 0%float.
Proof.
  unfold is_finite. intro H.
  apply Prim2SF_inj. rewrite sub_spec.
  destruct (Prim2SF x) as [s|s| |s m e]; try discriminate.
  - destruct s; reflexivity.
  - unfold SF64sub, SFsub. rewrite Z.sub_diag. reflexivity.
Qed.

Lemma vsub_diag (p : vec3) : finite3 p = true -> vsub p p = vzero.
Proof.
  destruct p as [[x y] z]. simpl.
  intro H. apply andb_prop in H as [Hx H]. apply andb_prop in H as [Hy Hz].
  unfold vzero. rewrite !sub_diag_finite by assumption. reflexivity.
Qed.

(** ** Local positions *)

Lemma layout_local_pos (as_quat : list (list float) -> option quat)
    (insts : dict Instance) (occs : dict Occurrence) (meshes : dict string)
    (l : Layout) (b p : body) :
  layout as_quat insts occs meshes = Ok l ->
  parent b = Some p ->
  exists wb qb wp qp,
    world_pose as_quat occs (body_id (named_ids insts) b) = Ok (wb, qb) /\
    world_pose as_quat occs (body_id (named_ids insts) p) = Ok (wp, qp) /\
    local_pos l b = vsub wb wp.
Proof.
  unfold layout. intros H Hp.
  bind_inv H. bind_inv H. bind_inv H. bind_inv H.
  bind_inv H. bind_inv H. bind_inv H. bind_inv H.
  injection H as <-.
  destruct a as [wm qm], a0 as [wh qh], a1 as [w1 q1], a2 as [w2 q2].
  destruct b; simpl in Hp; try discriminate; injection Hp as <-; simpl.
  - exists w2, q2, wm, qm. auto.
  - exists wh, qh, wm, qm. auto.
  - exists w1, q1, wh, qh. auto.
Qed.

(** ** Searching a text *)

Lemma strip_prefix_app (p s x : string) :
  orb (starts_with p s) (negb (starts_with s p)) = true ->
  strip_prefix p (s ++ x) = option_map (fun r => r ++ x) (strip_prefix p s).
Proof.
  revert s. induction p as [|a p IH]; intros s H.
  - reflexivity.
  - destruct s as [|b s].
    + simpl in H. discriminate.
    + simpl in *. rewrite (Ascii.eqb_sym b a) in H.
      destruct (Ascii.eqb a b); [apply IH; assumption | reflexivity].
Qed.

Lemma starts_with_strip (p s : string) :
  starts_with p s = match strip_prefix p s with Some _ => true | None => false end.
Proof.
  revert s. induction p as [|a p IH]; intros s; [reflexivity|].
  destruct s as [|b s]; [reflexivity|]. simpl.
  destruct (Ascii.eqb a b); [apply IH | reflexivity].
Qed.

Lemma starts_with_app (p s x : string) :
  orb (starts_with p s) (negb (starts_with s p)) = true ->
  starts_with p (s ++ x) = starts_with p s.
Proof.
  intro H. rewrite !starts_with_strip, strip_prefix_app by assumption.
  destruct (strip_prefix p s); reflexivity.
Qed.

Lemma occ_app_clean (p l x : string) :
  no_partial p l = true -> occ p (l ++ x) = occ p l + occ p x.
Proof.
  induction l as [|c l IH]; intro H; [reflexivity|].
  simpl in H. apply andb_prop in H as [H1 H2].
  change (occ p (String c l ++ x))
    with ((if starts_with p (String c l ++ x) then 1 else 0) + occ p (l ++ x)).
  rewrite starts_with_app by assumption. rewrite IH by assumption.
  change (occ p (String c l))
    with ((if starts_with p (String c l) then 1 else 0) + occ p l).
  lia.
Qed.

Lemma after_app_clean (p l x : string) :
  no_partial p l = true ->
  after p (l ++ x) = match after p l with
                     | Some r => Some (r ++ x)
                     | None => after p x
                     end.
Proof.
  induction l as [|c l IH]; intro H.
  - destruct p; [destruct x|]; reflexivity.
  - simpl in H. apply andb_prop in H as [H1 H2].
    change (after p (String c l ++ x))
      with (match strip_prefix p (String c l ++ x) with
            | Some r => Some r
            | None => after p (l ++ x)
            end).
    rewrite strip_prefix_app by assumption.
    change (after p (String c l))
      with (match strip_prefix p (String c l) with
            | Some r => Some r
            | None => after p l
            end).
    destruct (strip_prefix p (String c l)); simpl; [reflexivity|].
    apply IH; assumption.
Qed.

Lemma occ_field (c : ascii) (p h x : string) :
  has_char c h = false -> occ (String c p) (h ++ x) = occ (String c p) x.
Proof.
  induction h as [|a h IH]; intro H; [reflexivity|].
  simpl in H. apply orb_false_elim in H as [Ha Hh].
  change (occ (String c p) (String a h ++ x))
    with ((if starts_with (String c p) (String a (h ++ x)) then 1 else 0)
          + occ (String c p) (h ++ x)).
  simpl starts_with. rewrite Ascii.eqb_sym, Ha. simpl. apply IH; assumption.
Qed.

Lemma after_field (c : ascii) (p h x : string) :
  has_char c h = false -> after (String c p) (h ++ x) = after (String c p) x.
Proof.
  induction h as [|a h IH]; intro H; [reflexivity|].
  simpl in H. apply orb_false_elim in H as [Ha Hh].
  change (after (String c p) (String a h ++ x))
    with (match strip_prefix (String c p) (String a (h ++ x)) with
          | Some r => Some r
          | None => after (String c p) (h ++ x)
          end).
  simpl strip_prefix. rewrite Ascii.eqb_sym, Ha. apply IH; assumption.
Qed.

Lemma upto_app (c : ascii) (r x t : string) :
  upto c r = Some t -> upto c (r ++ x) = Some t.
Proof.
  revert t. induction r as [|a r IH]; intros t H; [discriminate|].
  simpl in *. destruct (Ascii.eqb a c); [assumption|].
  destruct (upto c r) as [u|]; [|discriminate].
  rewrite (IH u eq_refl). assumption.
Qed.

Lemma occ_flatten (c : ascii) (p : string) (l : list piece) :
  fields_free c l -> lits_clean (String c p) l = true ->
  occ (String c p) (flatten l) = lit_occ (String c p) l.
Proof.
  induction 1 as [|x l Hx Hl IH]; intro Hc; [reflexivity|].
  destruct x as [s|f]; simpl in Hc |- *.
  - apply andb_prop in Hc as [H1 H2].
    rewrite occ_app_clean by assumption. rewrite IH by assumption. reflexivity.
  - rewrite occ_field by assumption. apply IH; assumption.
Qed.

Lemma after_flatten (c : ascii) (p : string) (l : list piece) :
  fields_free c l -> lits_clean (String c p) l = true ->
  after (String c p) (flatten l)
  = option_map (fun rl => fst rl ++ flatten (snd rl)) (after_in (String c p) l).
Proof.
  induction 1 as [|x l Hx Hl IH]; intro Hc; [reflexivity|].
  destruct x as [s|f]; simpl in Hc |- *.
  - apply andb_prop in Hc as [H1 H2].
    rewrite after_app_clean by assumption.
    destruct (after (String c p) s); [reflexivity|]. apply IH; assumption.
  - rewrite after_field by assumption. apply IH; assumption.
Qed.

Lemma element_flatten (tag : string) (l : list piece) (t : string) :
  fields_free "<" l -> lits_clean ("<" ++ tag ++ " ") l = true ->
  element_in tag l = Some t -> element tag (flatten l) = Some t.
Proof.
  unfold element, element_in. simpl append. intros Hf Hc H.
  rewrite (after_flatten _ _ _ Hf Hc).
  destruct (after_in _ l) as [[r l']|]; [|discriminate].
  simpl. apply upto_app. assumption.
Qed.
(** ** The text of a formatted number *)

Lemma all_chars_app (f : ascii -> bool) (a b : string) :
  all_chars f (a ++ b) = andb (all_chars f a) (all_chars f b).
Proof.
  induction a as [|c a IH]; [reflexivity|].
  simpl. rewrite IH. apply andb_assoc.
Qed.

Lemma all_chars_impl (f g : ascii -> bool) (s : string) :
  (forall c, f c = true -> g c = true) ->
  all_chars f s = true -> all_chars g s = true.
Proof.
  intro Hfg. induction s as [|c s IH]; [reflexivity|].
  simpl. intro H. apply andb_prop in H as [H1 H2].
  rewrite (Hfg c H1), (IH H2). reflexivity.
Qed.

Lemma has_char_app (c : ascii) (a b : string) :
  has_char c (a ++ b) = orb (has_char c a) (has_char c b).
Proof.
  induction a as [|x a IH]; [reflexivity|].
  simpl. rewrite IH. apply orb_assoc.
Qed.

Lemma all_chars_has_char (f : ascii -> bool) (c : ascii) (s : string) :
  all_chars f s = true -> f c = false -> has_char c s = false.
Proof.
  intros Hs Hc. induction s as [|a s IH]; [reflexivity|].
  simpl in *. apply andb_prop in Hs as [Ha Hs].
  rewrite (IH Hs), orb_false_r.
  destruct (Ascii.eqb_spec a c) as [->|]; [congruence | reflexivity].
Qed.

Lemma digit_is_digit (d : Z) : (0 <= d < 10)%Z -> is_digit (digit d) = true.
Proof.
  intro H.
  assert (d = 0 \/ d = 1 \/ d = 2 \/ d = 3 \/ d = 4 \/ d = 5 \/ d = 6
          \/ d = 7 \/ d = 8 \/ d = 9)%Z as Hd by lia.
  repeat (destruct Hd as [->|Hd]; [reflexivity|]). subst d. reflexivity.
Qed.

Lemma mod10_is_digit (n : Z) : is_digit (digit (n mod 10)) = true.
Proof. apply digit_is_digit. apply Z.mod_pos_bound. lia. Qed.

Lemma frac6_digits (n : Z) : all_digits (frac6 n) = true.
Proof.
  unfold all_digits, frac6. cbn [all_chars]. rewrite !mod10_is_digit. reflexivity.
Qed.

Lemma frac6_length (n : Z) : String.length (frac6 n) = 6.
Proof. reflexivity. Qed.

Lemma uint_digits (d : Decimal.uint) :
  all_digits (NilEmpty.string_of_uint d) = true.
Proof. induction d; simpl; auto. Qed.

Lemma int_digits_shape (n : Z) :
  exists c r, int_digits n = String c r
              /\ is_digit c = true /\ all_digits r = true.
Proof.
  unfold int_digits, NilZero.string_of_uint.
  pose proof (uint_digits (N.to_uint (Z.to_N n))) as H.
  destruct (N.to_uint (Z.to_N n)) as [|d|d|d|d|d|d|d|d|d|d];
    simpl in H |- *; eauto.
Qed.

Lemma int_digits_digits (n : Z) : all_digits (int_digits n) = true.
Proof.
  destruct (int_digits_shape n) as (c & r & -> & Hc & Hr).
  unfold all_digits in *. simpl. rewrite Hc, Hr. reflexivity.
Qed.

Lemma skip_digits_point (a f : string) :
  all_digits a = true -> skip_digits (a ++ String "." f) = String "." f.
Proof.
  induction a as [|c a IH]; [reflexivity|].
  unfold all_digits. simpl. intro H. apply andb_prop in H as [Hc Ha].
  rewrite Hc. apply IH. assumption.
Qed.

Lemma is_fixed6_digit (c : ascii) (r : string) :
  is_digit c = true -> is_fixed6 (String c r) = fixed6_body (String c r).
Proof.
  destruct c as [[] [] [] [] [] [] [] []]; intro H; try discriminate H; reflexivity.
Qed.

Lemma fixed6_body_shape (c : ascii) (r fp : string) :
  is_digit c = true -> all_digits r = true ->
  all_digits fp = true -> String.length fp = 6 ->
  fixed6_body (String c r ++ "." ++ fp) = true.
Proof.
  intros Hc Hr Hfp Hlen. unfold fixed6_body.
  change (String c r ++ "." ++ fp) with (String c (r ++ String "." fp)).
  cbn [skip_digits]. rewrite Hc.
  rewrite skip_digits_point by assumption.
  rewrite Hlen, Hfp. reflexivity.
Qed.

Lemma fixed6_shape (s : bool) (ip fp : string) :
  (exists c r, ip = String c r /\ is_digit c = true /\ all_digits r = true) ->
  all_digits fp = true -> String.length fp = 6 ->
  is_fixed6 (sign_text s ++ ip ++ "." ++ fp) = true.
Proof.
  intros (c & r & -> & Hc & Hr) Hfp Hlen.
  destruct s.
  - change (is_fixed6 (sign_text true ++ String c r ++ "." ++ fp))
      with (fixed6_body (String c r ++ "." ++ fp)).
    apply fixed6_body_shape; assumption.
  - change (sign_text false ++ String c r ++ "." ++ fp)
      with (String c (r ++ "." ++ fp)).
    rewrite is_fixed6_digit by assumption.
    apply (fixed6_body_shape c r fp); assumption.
Qed.

Lemma fmt6_fixed (x : float) : is_finite x = true -> is_fixed6 (fmt6 x) = true.
Proof.
  unfold is_finite, fmt6.
  destruct (Prim2SF x) as [s|s| |s m e]; try discriminate; intros _.
  - destruct s; reflexivity.
  - apply fixed6_shape.
    + apply int_digits_shape.
    + apply frac6_digits.
    + apply frac6_length.
Qed.

Lemma digit_fmt_char (c : ascii) : is_digit c = true -> fmt_char c = true.
Proof. unfold fmt_char. intros ->. reflexivity. Qed.

Lemma fmt6_chars (x : float) : all_chars fmt_char (fmt6 x) = true.
Proof.
  unfold fmt6.
  destruct (Prim2SF x) as [s|s| |s m e].
  - destruct s; reflexivity.
  - destruct s; reflexivity.
  - reflexivity.
  - rewrite !all_chars_app.
    rewrite (all_chars_impl _ _ _ digit_fmt_char (int_digits_digits _)).
    rewrite (all_chars_impl _ _ _ digit_fmt_char (frac6_digits _)).
    destruct s; reflexivity.
Qed.

Lemma fmt_pos_free (p : vec3) : has_char "<" (fmt_pos p) = false.
Proof.
  destruct p as [[x y] z]. unfold fmt_pos.
  rewrite !has_char_app.
  rewrite !(all_chars_has_char _ "<" _ (fmt6_chars _) eq_refl). reflexivity.
Qed.

Lemma fmt_quat_free (q : quat) : has_char "<" (fmt_quat q) = false.
Proof.
  destruct q as [[[w x] y] z]. unfold fmt_quat.
  rewrite !has_char_app.
  rewrite !(all_chars_has_char _ "<" _ (fmt6_chars _) eq_refl). reflexivity.
Qed.
(** ** The elements of the scene *)

Lemma mjcf_fields_free (l : Layout) :
  lt_free l ->
  fields_free "<"
    (mjcf_pieces (L_motor_mesh l) (L_horn_mesh l) (L_joint1_mesh l)
       (L_joint2_mesh l) (L_motor_pos l) (L_motor_quat l)
       (L_j2_rel l) (L_j2_quat l) (L_horn_rel l) (L_horn_quat l)
       (L_j1_rel l) (L_j1_quat l)).
Proof.
  intros (Hm & Hh & H1 & H2).
  unfold fields_free, mjcf_pieces, T.
  repeat (apply Forall_cons;
          [first [exact I | assumption | apply fmt_pos_free | apply fmt_quat_free]|]).
  apply Forall_nil.
Qed.

Lemma mjcf_occ (c : ascii) (p : string) (n : nat) (l : Layout) :
  c = "<"%char ->
  (forall a b c' d e f g h i j k m,
      lits_clean (String c p) (mjcf_pieces a b c' d e f g h i j k m) = true) ->
  (forall a b c' d e f g h i j k m,
      lit_occ (String c p) (mjcf_pieces a b c' d e f g h i j k m) = n) ->
  lt_free l -> occ (String c p) (mjcf l) = n.
Proof.
  intros -> Hclean Hocc Hfree. unfold mjcf.
  rewrite (occ_flatten _ _ _ (mjcf_fields_free l Hfree) (Hclean _ _ _ _ _ _ _ _ _ _ _ _)).
  apply Hocc.
Qed.

Lemma mjcf_element (tag t : string) (l : Layout) :
  (forall a b c d e f g h i j k m,
      lits_clean ("<" ++ tag ++ " ") (mjcf_pieces a b c d e f g h i j k m) = true) ->
  (forall a b c d e f g h i j k m,
      element_in tag (mjcf_pieces a b c d e f g h i j k m) = Some t) ->
  lt_free l -> element tag (mjcf l) = Some t.
Proof.
  intros Hclean Helt Hfree. unfold mjcf.
  apply element_flatten; [apply mjcf_fields_free; assumption | apply Hclean | apply Helt].
Qed.

Lemma mjcf_joint_count (l : Layout) : lt_free l -> occ "<joint " (mjcf l) = 1.
Proof.
  apply mjcf_occ; [reflexivity | |]; intros; vm_compute; reflexivity.
Qed.

Lemma mjcf_motor_count (l : Layout) : lt_free l -> occ "<motor " (mjcf l) = 1.
Proof.
  apply mjcf_occ; [reflexivity | |]; intros; vm_compute; reflexivity.
Qed.

Lemma mjcf_body_count (l : Layout) :
  lt_free l -> occ "<body " (mjcf l) = 4 /\ occ "</body>" (mjcf l) = 4.
Proof.
  intro H. split; revert H;
    (apply mjcf_occ; [reflexivity | |]; intros; vm_compute; reflexivity).
Qed.

Lemma mjcf_joint_element (l : Layout) :
  lt_free l -> element "joint" (mjcf l) = Some servo_joint.
Proof.
  apply mjcf_element; intros; vm_compute; reflexivity.
Qed.

Lemma mjcf_motor_element (l : Layout) :
  lt_free l -> element "motor" (mjcf l) = Some servo_motor.
Proof.
  apply mjcf_element; intros; vm_compute; reflexivity.
Qed.

(** ** Dictionaries *)

Lemma dict_get_set_same {V} (d : dict V) (k : string) (v : V) :
  dict_get (dict_set d k v) k = Some v.
Proof.
  induction d as [|[k' v'] d IH]; simpl.
  - rewrite String.eqb_refl. reflexivity.
  - destruct (String.eqb k' k) eqn:E; simpl; rewrite E; [reflexivity | exact IH].
Qed.

Lemma dict_get_set_other {V} (d : dict V) (k k' : string) (v : V) :
  k <> k' -> dict_get (dict_set d k v) k' = dict_get d k'.
Proof.
  intro Hne. induction d as [|[k0 v0] d IH]; simpl.
  - destruct (String.eqb_spec k k'); [contradiction | reflexivity].
  - destruct (String.eqb_spec k0 k) as [->|Hk]; simpl.
    + destruct (String.eqb_spec k k'); [contradiction | reflexivity].
    + destruct (String.eqb k0 k'); [reflexivity | exact IH].
Qed.

Lemma last_by_from {A} (key : A -> string) (k : string) (l : list A) (acc : option A) :
  fold_left (fun acc a => if String.eqb (key a) k then Some a else acc) l acc
  = match last_by key k l with
    | Some a => Some a
    | None => acc
    end.
Proof.
  unfold last_by. revert acc. induction l as [|a l IH]; intro acc; [reflexivity|].
  simpl. rewrite IH. rewrite (IH (if String.eqb (key a) k then Some a else None)).
  destruct (fold_left _ l None); [reflexivity|].
  destruct (String.eqb (key a) k); reflexivity.
Qed.

Lemma last_by_In {A} (key : A -> string) (k : string) (l : list A) (a : A) :
  last_by key k l = Some a -> In a l /\ key a = k.
Proof.
  induction l as [|x l IH] using rev_ind; [discriminate|].
  unfold last_by. rewrite fold_left_app. simpl.
  destruct (String.eqb_spec (key x) k) as [Hk|Hk].
  - intro H. injection H as <-. split; [apply in_or_app; right; left; reflexivity | exact Hk].
  - intro H. destruct (IH H) as [Hin Hkey].
    split; [apply in_or_app; left; exact Hin | exact Hkey].
Qed.

Lemma last_by_None {A} (key : A -> string) (k : string) (l : list A) :
  last_by key k l = None <-> (forall a, In a l -> key a <> k).
Proof.
  induction l as [|x l IH] using rev_ind.
  - split; [intros _ a [] | reflexivity].
  - unfold last_by. rewrite fold_left_app. simpl. fold (last_by key k l).
    destruct (String.eqb_spec (key x) k) as [Hk|Hk].
    + split; [discriminate|]. intro H. exfalso.
      apply (H x); [apply in_or_app; right; left; reflexivity | exact Hk].
    + rewrite IH. split.
      * intros H a Ha. apply in_app_or in Ha as [Ha|[<-|[]]]; auto.
      * intros H a Ha. apply H. apply in_or_app. left. exact Ha.
Qed.

Lemma dict_of_list_get {A V} (key : A -> string) (val : A -> V)
    (l : list A) (d : dict V) (k : string) :
  dict_get (fold_left (fun d a => dict_set d (key a) (val a)) l d) k
  = match last_by key k l with
    | Some a => Some (val a)
    | None => dict_get d k
    end.
Proof.
  revert d. induction l as [|a l IH]; intro d; [reflexivity|].
  simpl. rewrite IH. unfold last_by at 2. simpl. rewrite last_by_from.
  destruct (last_by key k l); [reflexivity|].
  destruct (String.eqb_spec (key a) k) as [<-|Hk].
  - apply dict_get_set_same.
  - apply dict_get_set_other. exact Hk.
Qed.

Lemma mesh_map_get (meshes : list MeshEntry) (k : string) :
  dict_get (mesh_map meshes) k = option_map filename (last_by instanceId k meshes).
Proof.
  unfold mesh_map. rewrite dict_of_list_get.
  destruct (last_by instanceId k meshes); reflexivity.
Qed.

Lemma instances_dict_get (root : RootAssembly) (k : string) :
  dict_get (instances_dict root) k = last_by inst_id k (instances root).
Proof.
  unfold instances_dict. rewrite (dict_of_list_get inst_id (fun i => i)).
  destruct (last_by inst_id k (instances root)); reflexivity.
Qed.

Lemma subscript_Ok {V} (d : dict V) (k : option string) (v : V) :
  subscript d k = Ok v -> exists s, k = Some s /\ dict_get d s = Some v.
Proof.
  destruct k as [s|]; simpl; [|discriminate].
  destruct (dict_get d s) as [v'|] eqn:E; [|discriminate].
  intro H. injection H as <-. eauto.
Qed.

Lemma manifest_clean_get (meshes : list MeshEntry) (k : option string) (f : string) :
  manifest_clean meshes -> subscript (mesh_map meshes) k = Ok f ->
  has_char "<" f = false.
Proof.
  intros Hc H. apply subscript_Ok in H as (s & -> & H).
  rewrite mesh_map_get in H.
  destruct (last_by instanceId s meshes) as [m|] eqn:E; [|discriminate].
  injection H as <-. apply last_by_In in E as [Hin _].
  unfold manifest_clean in Hc. rewrite Forall_forall in Hc. auto.
Qed.

Lemma layout_lt_free (as_quat : list (list float) -> option quat)
    (insts : dict Instance) (occs : dict Occurrence)
    (meshes : list MeshEntry) (l : Layout) :
  manifest_clean meshes ->
  layout as_quat insts occs (mesh_map meshes) = Ok l -> lt_free l.
Proof.
  intros Hc H. unfold layout in H.
  bind_inv H. bind_inv H. bind_inv H. bind_inv H.
  bind_inv H. bind_inv H. bind_inv H. bind_inv H.
  injection H as <-. unfold lt_free. simpl.
  repeat split; eapply manifest_clean_get; eauto.
Qed.
(** ** What every written scene contains *)

(** X1. The scene that [main] writes has four body elements, each closed, one
    joint element and one motor element, and the motor names the joint:
    this holds for every assembly and manifest on which [main] completes,
    as long as no mesh file name contains the character that opens a
    tag. *)
Theorem scene_has_one_joint_and_one_motor
    (as_quat : list (list float) -> option quat)
    (root : RootAssembly) (meshes : list MeshEntry) (out : string) :
  manifest_clean meshes ->
  main as_quat root meshes = Ok out ->
  occ "<body " out = 4 /\ occ "</body>" out = 4 /\
  occ "<joint " out = 1 /\ occ "<motor " out = 1 /\
  element_attribute "joint" "name" out = Some "servo_rotation" /\
  element_attribute "motor" "joint" out = Some "servo_rotation".
Proof.
  intros Hc H. apply main_Ok in H as (occs & l & _ & Hl & ->).
  pose proof (layout_lt_free _ _ _ _ _ Hc Hl) as Hfree.
  destruct (mjcf_body_count l Hfree) as [Hb1 Hb2].
  unfold element_attribute.
  rewrite (mjcf_joint_element l Hfree), (mjcf_motor_element l Hfree).
  repeat split; auto using mjcf_joint_count, mjcf_motor_count.
Qed.

Lemma scene_has_one_joint_and_one_motor_sample :
  occ "<body " (mjcf sample_layout) = 4 /\ occ "</body>" (mjcf sample_layout) = 4 /\
  occ "<joint " (mjcf sample_layout) = 1 /\ occ "<motor " (mjcf sample_layout) = 1 /\
  element_attribute "joint" "name" (mjcf sample_layout) = Some "servo_rotation" /\
  element_attribute "motor" "joint" (mjcf sample_layout) = Some "servo_rotation".
Proof.
  apply (scene_has_one_joint_and_one_motor sample_as_quat sample_assembly sample_meshes).
  - repeat constructor.
  - vm_compute. reflexivity.
Defined.

(** ** The four named parts *)

Lemma name_step_hit (ids : NamedIds) (item : string * Instance) (b : body) :
  item_class item = Some b -> body_id (name_step ids item) b = Some (fst item).
Proof.
  unfold item_class, name_class, name_step.
  destruct (contains "motor" _); [intro H; injection H as <-; reflexivity|].
  destruct (contains "horn" _); [intro H; injection H as <-; reflexivity|].
  destruct (orb (contains "joint #1" _) _); [intro H; injection H as <-; reflexivity|].
  destruct (orb (contains "joint #2" _) _); [intro H; injection H as <-; reflexivity|].
  discriminate.
Qed.

Lemma name_step_miss (ids : NamedIds) (item : string * Instance) (b : body) :
  item_class item <> Some b -> body_id (name_step ids item) b = body_id ids b.
Proof.
  unfold item_class, name_class, name_step.
  destruct (contains "motor" _); [destruct b; intro H; try reflexivity; now elim H|].
  destruct (contains "horn" _); [destruct b; intro H; try reflexivity; now elim H|].
  destruct (orb (contains "joint #1" _) _);
    [destruct b; intro H; try reflexivity; now elim H|].
  destruct (orb (contains "joint #2" _) _);
    [destruct b; intro H; try reflexivity; now elim H|].
  reflexivity.
Qed.

Lemma body_eq_dec (a b : option body) : {a = b} + {a <> b}.
Proof. decide equality. decide equality. Qed.

Lemma name_fold_miss (l : dict Instance) (ids : NamedIds) (b : body) :
  (forall item, In item l -> item_class item <> Some b) ->
  body_id (fold_left name_step l ids) b = body_id ids b.
Proof.
  revert ids. induction l as [|x l IH]; intros ids H; [reflexivity|].
  simpl. rewrite IH by (intros; apply H; right; assumption).
  apply name_step_miss. apply H. left. reflexivity.
Qed.

(** X3. Lines 103-112.  Of the instances whose lower-case name falls in the
    class of a body (motor before horn before joint 1 before joint 2), the
    last one in dictionary order gives the id of that body; a class without
    an instance leaves the id at None. *)
Theorem named_ids_last_match (insts l1 l2 : dict Instance)
    (item : string * Instance) (b : body) :
  insts = (l1 ++ item :: l2)%list ->
  item_class item = Some b ->
  (forall x, In x l2 -> item_class x <> Some b) ->
  body_id (named_ids insts) b = Some (fst item).
Proof.
  intros -> Hit Hl2. unfold named_ids.
  rewrite fold_left_app. simpl.
  rewrite name_fold_miss by assumption.
  apply name_step_hit. assumption.
Qed.

Lemma named_ids_last_match_sample :
  body_id (named_ids [("a", {| inst_id := "a"; inst_name := "Servo HORN" |});
                      ("b", {| inst_id := "b"; inst_name := "Motor horn" |});
                      ("c", {| inst_id := "c"; inst_name := "horn v2" |});
                      ("d", {| inst_id := "d"; inst_name := "Bracket" |})]) Horn
  = Some "c".
Proof.
  apply (named_ids_last_match _
           [("a", {| inst_id := "a"; inst_name := "Servo HORN" |});
            ("b", {| inst_id := "b"; inst_name := "Motor horn" |})]
           [("d", {| inst_id := "d"; inst_name := "Bracket" |})]
           ("c", {| inst_id := "c"; inst_name := "horn v2" |}) Horn).
  - reflexivity.
  - reflexivity.
  - intros x [<-|[]]. vm_compute. discriminate.
Defined.

Lemma named_ids_inv (l : dict Instance) (ids : NamedIds) (b : body) (id : string) :
  body_id (fold_left name_step l ids) b = Some id ->
  body_id ids b = Some id \/
  exists inst, In (id, inst) l /\ item_class (id, inst) = Some b.
Proof.
  induction l as [|x l IH] using rev_ind; [auto|].
  rewrite fold_left_app. simpl.
  destruct (body_eq_dec (item_class x) (Some b)) as [Hx|Hx].
  - rewrite name_step_hit by assumption. intro H. injection H as <-.
    right. destruct x as [k inst]. exists inst.
    split; [apply in_or_app; right; left; reflexivity | exact Hx].
  - rewrite name_step_miss by assumption. intro H.
    destruct (IH H) as [H0|(inst & Hin & Hc)]; [auto|].
    right. exists inst. split; [apply in_or_app; left|]; assumption.
Qed.

Lemma named_ids_none (insts : dict Instance) (b : body) :
  (forall item, In item insts -> item_class item <> Some b) ->
  body_id (named_ids insts) b = None.
Proof.
  intro H. unfold named_ids. rewrite name_fold_miss by assumption.
  destruct b; reflexivity.
Qed.

(** ** The dictionaries of [main] *)

Lemma dict_set_In {V} (d : dict V) (k : string) (v : V) (k' : string) (v' : V) :
  In (k', v') (dict_set d k v) -> In (k', v') d \/ (k' = k /\ v' = v).
Proof.
  induction d as [|[k0 v0] d IH]; simpl.
  - intros [H|[]]. injection H as <- <-. auto.
  - destruct (String.eqb_spec k0 k) as [->|Hk]; simpl.
    + intros [H|H]; [injection H as <- <-|]; auto.
    + intros [H|H]; [auto|]. destruct (IH H) as [H'|H']; auto.
Qed.

Lemma instances_dict_In (root : RootAssembly) (k : string) (inst : Instance) :
  In (k, inst) (instances_dict root) -> In inst (instances root) /\ inst_id inst = k.
Proof.
  unfold instances_dict.
  assert (G : forall l d,
             In (k, inst) (fold_left (fun d i => dict_set d (inst_id i) i) l d) ->
             In (k, inst) d \/ (In inst l /\ inst_id inst = k)).
  { induction l as [|x l IH]; intros d H; [auto|].
    simpl in H. destruct (IH _ H) as [H'|[H' Hk]].
    - apply dict_set_In in H' as [H'|[-> ->]]; [auto|].
      right. split; [left|]; reflexivity.
    - right. split; [right|]; assumption. }
  intro H. destruct (G _ _ H) as [[]|H']. exact H'.
Qed.

Lemma index_head (o : Occurrence) :
  index (occ_path o) 0 = if has_path o then Ok (occ_key o) else Raise IndexError.
Proof. unfold index, has_path, occ_key. destruct (occ_path o); reflexivity. Qed.

Lemma occurrences_from_spec (l : list Occurrence) (d : dict Occurrence) :
  occurrences_from l d
  = if forallb has_path l
    then Ok (fold_left (fun d o => dict_set d (occ_key o) o) l d)
    else Raise IndexError.
Proof.
  revert d. induction l as [|o l IH]; intro d; [reflexivity|].
  simpl. rewrite index_head. destruct (has_path o); simpl; [apply IH | reflexivity].
Qed.

Lemma occurrences_dict_get (root : RootAssembly) (occs : dict Occurrence) (k : string) :
  occurrences_dict root = Ok occs ->
  dict_get occs k = last_by occ_key k (occurrences root).
Proof.
  unfold occurrences_dict. rewrite occurrences_from_spec.
  destruct (forallb has_path (occurrences root)); [|discriminate].
  intro H. injection H as <-.
  rewrite (dict_of_list_get occ_key (fun o => o)).
  destruct (last_by occ_key k (occurrences root)); reflexivity.
Qed.

(** X4. Line 49.  An occurrence with an empty path ends the run with an
    IndexError, whatever else the assembly holds. *)
Theorem main_empty_path (as_quat : list (list float) -> option quat)
    (root : RootAssembly) (meshes : list MeshEntry) (o : Occurrence) :
  In o (occurrences root) -> occ_path o = [] ->
  main as_quat root meshes = Raise IndexError.
Proof.
  intros Hin Hp. unfold main, occurrences_dict. rewrite occurrences_from_spec.
  replace (forallb has_path (occurrences root)) with false; [reflexivity|].
  symmetry. apply not_true_is_false. intro H.
  rewrite forallb_forall in H. specialize (H o Hin).
  unfold has_path in H. rewrite Hp in H. discriminate.
Qed.

Lemma main_empty_path_sample :
  main sample_as_quat
    {| instances := instances sample_assembly;
       occurrences := (occurrences sample_assembly
                       ++ [ {| occ_path := []; occ_fixed := false;
                               occ_transform := translation 0 0 0 |} ])%list;
       features := [] |} sample_meshes
  = Raise IndexError.
Proof.
  apply (main_empty_path sample_as_quat _ sample_meshes
           {| occ_path := []; occ_fixed := false;
              occ_transform := translation 0 0 0 |}).
  - simpl. auto 10.
  - reflexivity.
Defined.
(** ** [transform_to_pos_quat] *)

Lemma transform_cases (as_quat : list (list float) -> option quat) (t : list float) :
  transform_to_pos_quat as_quat t
  = if Nat.ltb (List.length t) 12 then Raise IndexError
    else match as_quat [[nth 0 t 0%float; nth 4 t 0%float; nth 8 t 0%float];
                        [nth 1 t 0%float; nth 5 t 0%float; nth 9 t 0%float];
                        [nth 2 t 0%float; nth 6 t 0%float; nth 10 t 0%float]] with
         | None => Raise ValueError
         | Some (x, y, z, w) =>
             Ok ((nth 3 t 0%float, nth 7 t 0%float, nth 11 t 0%float), (w, x, y, z))
         end.
Proof.
  do 12 (destruct t as [|? t]; [reflexivity|]). reflexivity.
Qed.

(** X5. Lines 20-40.  A transform with fewer than twelve values raises an
    IndexError before scipy is called.  With twelve values or more, the
    position is the values 3, 7 and 11, the rows handed to scipy are the
    values (0, 4, 8), (1, 5, 9) and (2, 6, 10), the quaternion (x, y, z, w)
    of scipy is returned as (w, x, y, z), and a refusal of scipy is a
    ValueError; the values from index 12 on are never read. *)
Theorem transform_to_pos_quat_cases
    (as_quat : list (list float) -> option quat) (t : list float) :
  let n i := nth i t 0%float in
  transform_to_pos_quat as_quat t
  = if Nat.ltb (List.length t) 12 then Raise IndexError
    else match as_quat [[n 0; n 4; n 8]; [n 1; n 5; n 9]; [n 2; n 6; n 10]] with
         | None => Raise ValueError
         | Some (x, y, z, w) => Ok ((n 3, n 7, n 11), (w, x, y, z))
         end.
Proof.
  intro n. subst n.
  destruct (Nat.ltb_spec (List.length t) 12) as [Hshort|Hlong].
  - do 12 (destruct t as [|? t]; [reflexivity|]). simpl in Hshort. lia.
  - do 12 (destruct t as [|? t]; [simpl in Hlong; lia|]). reflexivity.
Qed.

Lemma transform_Ok_length (as_quat : list (list float) -> option quat)
    (t : list float) (r : vec3 * quat) :
  transform_to_pos_quat as_quat t = Ok r -> 12 <= List.length t.
Proof.
  rewrite transform_cases.
  destruct (Nat.ltb_spec (List.length t) 12); [discriminate | auto].
Qed.

(** ** What a run that completes has found *)

Lemma layout_parts (as_quat : list (list float) -> option quat)
    (insts : dict Instance) (occs : dict Occurrence) (meshes : dict string)
    (l : Layout) (b : body) :
  layout as_quat insts occs meshes = Ok l ->
  exists pose file,
    world_pose as_quat occs (body_id (named_ids insts) b) = Ok pose /\
    subscript meshes (body_id (named_ids insts) b) = Ok file.
Proof.
  unfold layout. intro H.
  bind_inv H. bind_inv H. bind_inv H. bind_inv H.
  bind_inv H. bind_inv H. bind_inv H. bind_inv H.
  destruct b; simpl; eauto.
Qed.

(** X6. Lines 103-154.  When [main] completes, each of the four bodies has an
    instance whose lower-case name falls in its class, an occurrence whose
    path starts with the id of that instance and whose transform has at
    least twelve values, and a manifest entry for that id.  So an assembly
    without a part named after the horn, say, or a manifest without its
    file, never yields a scene. *)
Theorem main_requires_four_parts
    (as_quat : list (list float) -> option quat)
    (root : RootAssembly) (meshes : list MeshEntry) (out : string) :
  main as_quat root meshes = Ok out ->
  forall b, exists id inst o m,
    body_id (named_ids (instances_dict root)) b = Some id /\
    In inst (instances root) /\ inst_id inst = id /\
    name_class (lower (inst_name inst)) = Some b /\
    In o (occurrences root) /\ nth_error (occ_path o) 0 = Some id /\
    12 <= List.length (occ_transform o) /\
    In m meshes /\ instanceId m = id.
Proof.
  intros H b. apply main_Ok in H as (occs & l & Hoccs & Hl & _).
  destruct (layout_parts _ _ _ _ _ b Hl) as (pose & file & Hpose & Hfile).
  unfold world_pose in Hpose. bind_inv Hpose.
  apply subscript_Ok in Ha as (id & Hid & Hget).
  rewrite Hid in Hfile. apply subscript_Ok in Hfile as (id' & Heq & Hmesh).
  injection Heq as <-.
  rewrite (occurrences_dict_get _ _ _ Hoccs) in Hget.
  pose proof Hget as Hlast. apply last_by_In in Hget as [Hin Hkey].
  rewrite mesh_map_get in Hmesh.
  destruct (last_by instanceId id meshes) as [m|] eqn:Em; [|discriminate].
  apply last_by_In in Em as [Hm Hmid].
  pose proof Hid as Hname. unfold named_ids in Hname.
  apply named_ids_inv in Hname as [Hname|(inst & Hinst & Hclass)];
    [destruct b; discriminate|].
  apply instances_dict_In in Hinst as [Hinst Hinstid].
  exists id, inst, a, m. repeat split; auto.
  - unfold occurrences_dict in Hoccs. rewrite occurrences_from_spec in Hoccs.
    destruct (forallb has_path (occurrences root)) eqn:E; [|discriminate].
    rewrite forallb_forall in E. specialize (E a Hin).
    unfold occ_key in Hkey. unfold has_path in E.
    destruct (occ_path a); [discriminate|]. simpl in *. congruence.
  - eapply transform_Ok_length. eassumption.
Qed.

Lemma main_requires_four_parts_sample :
  exists id inst o m,
    body_id (named_ids (instances_dict sample_assembly)) Horn = Some id /\
    In inst (instances sample_assembly) /\ inst_id inst = id /\
    name_class (lower (inst_name inst)) = Some Horn /\
    In o (occurrences sample_assembly) /\ nth_error (occ_path o) 0 = Some id /\
    12 <= List.length (occ_transform o) /\
    In m sample_meshes /\ instanceId m = id.
Proof.
  refine (main_requires_four_parts sample_as_quat sample_assembly sample_meshes
            (mjcf sample_layout) _ Horn).
  vm_compute. reflexivity.
Defined.

(** ** The base part *)

Lemma find_fixed_first (l1 l2 : list Occurrence) (o : Occurrence) :
  (forall x, In x l1 -> occ_fixed x = false) -> occ_fixed o = true ->
  find_fixed (l1 ++ o :: l2) = k <- index (occ_path o) 0 ;; Ok (Some k).
Proof.
  intros H1 Ho. induction l1 as [|x l1 IH]; simpl.
  - rewrite Ho. reflexivity.
  - rewrite (H1 x) by (left; reflexivity).
    apply IH. intros y Hy. apply H1. right. assumption.
Qed.

Lemma find_fixed_none (l : list Occurrence) :
  (forall x, In x l -> occ_fixed x = false) -> find_fixed l = Ok None.
Proof.
  intro H. induction l as [|x l IH]; [reflexivity|].
  simpl. rewrite (H x) by (left; reflexivity).
  apply IH. intros y Hy. apply H. right. assumption.
Qed.

(** X7. Lines 53-64.  The base id is the first id of the path of the first
    occurrence whose [fixed] flag is set, when that id is not the empty
    string; later fixed occurrences and the names of the instances play no
    part. *)
Theorem base_is_first_fixed (root : RootAssembly) (l1 l2 : list Occurrence)
    (o : Occurrence) (k : string) (rest : list string) :
  occurrences root = (l1 ++ o :: l2)%list ->
  (forall x, In x l1 -> occ_fixed x = false) ->
  occ_fixed o = true ->
  occ_path o = k :: rest -> k <> EmptyString ->
  select_fixed_id root = Ok (Some k).
Proof.
  intros Hroot H1 Ho Hp Hk. unfold select_fixed_id.
  rewrite Hroot, (find_fixed_first _ _ _ H1 Ho), Hp. simpl.
  destruct k; [contradiction | reflexivity].
Qed.

Lemma base_is_first_fixed_sample :
  select_fixed_id sample_assembly = Ok (Some "M").
Proof.
  apply (base_is_first_fixed sample_assembly []
           (tl (occurrences sample_assembly))
           {| occ_path := ["M"]; occ_fixed := true;
              occ_transform := translation 0 0 0 |} "M" []).
  - reflexivity.
  - intros x [].
  - reflexivity.
  - reflexivity.
  - discriminate.
Defined.

Lemma select_fixed_id_unfixed (root : RootAssembly) :
  (forall o, In o (occurrences root) -> occ_fixed o = false) ->
  select_fixed_id root = Ok (first_motor (instances_dict root)).
Proof.
  intro H. unfold select_fixed_id. rewrite (find_fixed_none _ H). simpl.
  destruct (first_motor (instances_dict root)); reflexivity.
Qed.

Lemma dict_set_fresh {V} (d : dict V) (k : string) (v : V) :
  ~ In k (map fst d) -> dict_set d k v = (d ++ [(k, v)])%list.
Proof.
  induction d as [|[k' v'] d IH]; intro H; [reflexivity|].
  simpl in *. destruct (String.eqb_spec k' k) as [->|Hk].
  - exfalso. apply H. left. reflexivity.
  - rewrite IH; [reflexivity|]. intro Hin. apply H. right. assumption.
Qed.

Lemma instances_dict_nodup (l : list Instance) (d : dict Instance) :
  NoDup (map fst d ++ map inst_id l) ->
  fold_left (fun d inst => dict_set d (inst_id inst) inst) l d
  = (d ++ map (fun i => (inst_id i, i)) l)%list.
Proof.
  revert d. induction l as [|i l IH]; intros d H.
  - simpl. rewrite app_nil_r. reflexivity.
  - simpl in *. rewrite dict_set_fresh.
    + rewrite IH.
      * rewrite <- app_assoc. reflexivity.
      * rewrite map_app. simpl. rewrite <- app_assoc. exact H.
    + intro Hin. apply NoDup_remove_2 in H. apply H.
      apply in_or_app. left. assumption.
Qed.

Lemma first_motor_find (l : list Instance) :
  first_motor (map (fun i => (inst_id i, i)) l) = option_map inst_id (find is_motor l).
Proof.
  induction l as [|i l IH]; [reflexivity|].
  simpl. unfold is_motor at 1. destruct (contains "motor" _); [reflexivity | exact IH].
Qed.

(** X8. Lines 59-64.  When no occurrence is fixed and the ids of the
    instances are distinct, the base id is the id of the first instance of
    the list whose lower-case name contains "motor", and None when there is
    no such instance. *)
Theorem base_falls_back_to_motor (root : RootAssembly) :
  (forall o, In o (occurrences root) -> occ_fixed o = false) ->
  NoDup (map inst_id (instances root)) ->
  select_fixed_id root = Ok (option_map inst_id (find is_motor (instances root))).
Proof.
  intros H Hnd. unfold select_fixed_id.
  assert (Hnone : find_fixed (occurrences root) = Ok None).
  { induction (occurrences root) as [|x l IH]; [reflexivity|].
    simpl. rewrite (H x) by (left; reflexivity).
    apply IH. intros y Hy. apply H. right. assumption. }
  rewrite Hnone. simpl. unfold instances_dict.
  rewrite (instances_dict_nodup _ []) by exact Hnd. simpl.
  rewrite first_motor_find.
  destruct (find is_motor (instances root)); reflexivity.
Qed.

Lemma base_falls_back_to_motor_sample :
  select_fixed_id
    {| instances := instances sample_assembly;
       occurrences := [ {| occ_path := ["H"]; occ_fixed := false;
                           occ_transform := translation 0 0 0 |} ];
       features := [] |}
  = Ok (option_map inst_id (find is_motor (instances sample_assembly))).
Proof.
  apply (base_falls_back_to_motor
           {| instances := instances sample_assembly;
              occurrences := [ {| occ_path := ["H"]; occ_fixed := false;
                                  occ_transform := translation 0 0 0 |} ];
              features := [] |}).
  - intros o [<-|[]]. reflexivity.
  - simpl. repeat constructor; simpl; intuition discriminate.
Defined.

Lemma first_motor_none (items : dict Instance) :
  (forall item, In item items ->
     contains "motor" (lower (inst_name (snd item))) = false) ->
  first_motor items = None.
Proof.
  intro H. induction items as [|[id inst] items IH]; [reflexivity|].
  simpl. pose proof (H (id, inst) (or_introl eq_refl)) as Hi. simpl in Hi.
  rewrite Hi. apply IH. intros item Hin. apply H. right. assumption.
Qed.

(** X9. Lines 53-66.  With no fixed occurrence and no instance named after the
    motor, the run ends at the print of the base name with the KeyError of
    the key None (every occurrence having a path). *)
Theorem main_without_base (as_quat : list (list float) -> option quat)
    (root : RootAssembly) (meshes : list MeshEntry) :
  (forall o, In o (occurrences root) -> occ_path o <> []) ->
  (forall o, In o (occurrences root) -> occ_fixed o = false) ->
  (forall inst, In inst (instances root) ->
     contains "motor" (lower (inst_name inst)) = false) ->
  main as_quat root meshes = Raise (KeyError None).
Proof.
  intros Hp Hf Hm. unfold main, occurrences_dict.
  rewrite occurrences_from_spec.
  replace (forallb has_path (occurrences root)) with true.
  - simpl. unfold base_part. rewrite (select_fixed_id_unfixed _ Hf).
    rewrite first_motor_none; [reflexivity|].
    intros [id inst] Hin. apply instances_dict_In in Hin as [Hin _].
    apply Hm. assumption.
  - symmetry. apply forallb_forall. intros o Hin. unfold has_path.
    specialize (Hp o Hin). destruct (occ_path o); [contradiction | reflexivity].
Qed.

Lemma main_without_base_sample :
  main sample_as_quat
    {| instances := [ {| inst_id := "H"; inst_name := "Horn" |} ];
       occurrences := [ {| occ_path := ["H"]; occ_fixed := false;
                           occ_transform := translation 0 0 0 |} ];
       features := [] |} sample_meshes
  = Raise (KeyError None).
Proof.
  apply (main_without_base sample_as_quat
           {| instances := [ {| inst_id := "H"; inst_name := "Horn" |} ];
              occurrences := [ {| occ_path := ["H"]; occ_fixed := false;
                                  occ_transform := translation 0 0 0 |} ];
              features := [] |} sample_meshes).
  - intros o [<-|[]]. discriminate.
  - intros o [<-|[]]. reflexivity.
  - intros i [<-|[]]. reflexivity.
Defined.
(** ** What the scene does not depend on *)

Lemma last_by_map {A B} (g : A -> B) (key : A -> string) (key' : B -> string)
    (k : string) (l : list A) :
  (forall a, key a = key' (g a)) ->
  option_map g (last_by key k l) = last_by key' k (map g l).
Proof.
  intro Hk. induction l as [|x l IH] using rev_ind; [reflexivity|].
  rewrite map_app. unfold last_by. rewrite !fold_left_app. simpl.
  fold (last_by key k l). fold (last_by key' k (map g l)).
  rewrite <- Hk. destruct (String.eqb (key x) k); [reflexivity | exact IH].
Qed.

Lemma world_pose_placement (as_quat : list (list float) -> option quat)
    (occs occs' : dict Occurrence) (k : option string) :
  (forall s, option_map placement (dict_get occs s)
             = option_map placement (dict_get occs' s)) ->
  world_pose as_quat occs k = world_pose as_quat occs' k.
Proof.
  intro H. destruct k as [s|]; [|reflexivity].
  unfold world_pose, subscript. specialize (H s).
  destruct (dict_get occs s) as [o|], (dict_get occs' s) as [o'|];
    try discriminate; [|reflexivity].
  simpl in *. injection H as _ Ht. rewrite Ht. reflexivity.
Qed.

Lemma layout_placement (as_quat : list (list float) -> option quat)
    (insts : dict Instance) (occs occs' : dict Occurrence) (meshes : dict string) :
  (forall s, option_map placement (dict_get occs s)
             = option_map placement (dict_get occs' s)) ->
  layout as_quat insts occs meshes = layout as_quat insts occs' meshes.
Proof.
  intro H. unfold layout.
  rewrite !(world_pose_placement as_quat occs occs' _ H). reflexivity.
Qed.

(** X10. The written scene is computed from the instances, from the paths and
    transforms of the occurrences and from the manifest only: two
    assemblies that agree on these and on which [main] completes give the
    same text, whichever occurrence is marked as fixed and whatever mates
    they hold.  The top body of the scene is the part named after the
    motor, not the fixed occurrence. *)
Theorem scene_ignores_fixed_flag_and_mates
    (as_quat : list (list float) -> option quat)
    (root root' : RootAssembly) (meshes : list MeshEntry) (out out' : string) :
  instances root = instances root' ->
  map placement (occurrences root) = map placement (occurrences root') ->
  main as_quat root meshes = Ok out ->
  main as_quat root' meshes = Ok out' ->
  out = out'.
Proof.
  intros Hi Ho H H'.
  apply main_Ok in H as (occs & l & Hoccs & Hl & ->).
  apply main_Ok in H' as (occs' & l' & Hoccs' & Hl' & ->).
  assert (Hd : instances_dict root = instances_dict root')
    by (unfold instances_dict; rewrite Hi; reflexivity).
  rewrite <- Hd in Hl'.
  rewrite (layout_placement as_quat _ occs occs') in Hl.
  - rewrite Hl in Hl'. injection Hl' as <-. reflexivity.
  - intro s.
    rewrite (occurrences_dict_get _ _ _ Hoccs), (occurrences_dict_get _ _ _ Hoccs').
    rewrite !(last_by_map placement occ_key (fun p => hd EmptyString (fst p)))
      by reflexivity.
    rewrite Ho. reflexivity.
Qed.

(** The sample assembly with the horn marked as fixed instead of the motor,
    and a ball mate in place of the cylindrical one. *)
Lemma scene_ignores_fixed_flag_and_mates_sample :
  mjcf sample_layout = mjcf sample_layout.
Proof.
  apply (scene_ignores_fixed_flag_and_mates sample_as_quat sample_assembly
           {| instances := instances sample_assembly;
              occurrences :=
                [ {| occ_path := ["M"]; occ_fixed := false;
                     occ_transform := translation 0 0 0 |};
                  {| occ_path := ["H"]; occ_fixed := true;
                     occ_transform := translation tenth 0 0 |};
                  {| occ_path := ["A"]; occ_fixed := false;
                     occ_transform := translation tenth 0 0.25 |};
                  {| occ_path := ["B"]; occ_fixed := false;
                     occ_transform := translation 0 0.5 0 |} ];
              features := [ mate "BALL" [1; 0; 0]%float "A" "B" ] |}
           sample_meshes).
  - reflexivity.
  - reflexivity.
  - vm_compute. reflexivity.
  - vm_compute. reflexivity.
Defined.

Lemma for_each_Ok {A} (body : A -> result unit) (l : list A) (x : A) :
  for_each body l = Ok tt -> In x l -> body x = Ok tt.
Proof.
  induction l as [|y l IH]; intros H Hin; [destruct Hin|].
  simpl in H. bind_inv H. destruct a.
  destruct Hin as [<-|Hin]; [assumption | auto].
Qed.

Lemma main_reports (as_quat : list (list float) -> option quat)
    (root : RootAssembly) (meshes : list MeshEntry) (out : string) :
  main as_quat root meshes = Ok out ->
  exists occs,
    occurrences_dict root = Ok occs /\
    report_positions as_quat (instances_dict root) occs = Ok tt /\
    for_each (report_mate (instances_dict root)) (features root) = Ok tt.
Proof.
  unfold main. intro H.
  bind_inv H. bind_inv H. bind_inv H. bind_inv H.
  destruct a1, a2. eauto.
Qed.

(** X11. Lines 79-94.  Nothing of a mate reaches the scene, yet the run
    completes only if every cylindrical mate has two mated entities whose
    occurrence paths start with the ids of two instances. *)
Theorem main_requires_well_formed_cylindrical_mates
    (as_quat : list (list float) -> option quat)
    (root : RootAssembly) (meshes : list MeshEntry) (out : string)
    (fd : FeatureData) :
  main as_quat root meshes = Ok out ->
  In fd (features root) -> mateType fd = "CYLINDRICAL" ->
  exists e0 e1 ents horn_id hp motor_id mp horn motor,
    matedEntities fd = e0 :: e1 :: ents /\
    matedOccurrence e0 = horn_id :: hp /\
    matedOccurrence e1 = motor_id :: mp /\
    In horn (instances root) /\ inst_id horn = horn_id /\
    In motor (instances root) /\ inst_id motor = motor_id.
Proof.
  intros H Hin Hty. apply main_reports in H as (occs & _ & _ & H).
  apply (for_each_Ok _ _ fd) in H; [|assumption].
  unfold report_mate in H. rewrite Hty in H. simpl in H.
  unfold index in H.
  destruct (matedEntities fd) as [|e0 [|e1 ents]]; simpl in H;
    [discriminate | destruct (matedOccurrence e0); discriminate |].
  destruct (matedOccurrence e0) as [|h hp] eqn:E0; [discriminate|].
  destruct (matedOccurrence e1) as [|m mp] eqn:E1; [discriminate|].
  simpl in H. bind_inv H. bind_inv H.
  apply (subscript_Ok _ (Some h)) in Ha as (s & Hs & Hh). injection Hs as <-.
  apply (subscript_Ok _ (Some m)) in Ha0 as (s & Hs & Hm). injection Hs as <-.
  rewrite instances_dict_get in Hh, Hm.
  apply last_by_In in Hh as [Hh1 Hh2]. apply last_by_In in Hm as [Hm1 Hm2].
  exists e0, e1, ents, h, hp, m, mp, a, a0. repeat split; assumption.
Qed.

Lemma main_requires_well_formed_cylindrical_mates_sample :
  exists e0 e1 ents horn_id hp motor_id mp horn motor,
    matedEntities (mate "CYLINDRICAL" [0; 1; 0]%float "H" "M") = e0 :: e1 :: ents /\
    matedOccurrence e0 = horn_id :: hp /\
    matedOccurrence e1 = motor_id :: mp /\
    In horn (instances sample_assembly) /\ inst_id horn = horn_id /\
    In motor (instances sample_assembly) /\ inst_id motor = motor_id.
Proof.
  apply (main_requires_well_formed_cylindrical_mates sample_as_quat
           sample_assembly sample_meshes (mjcf sample_layout)).
  - vm_compute. reflexivity.
  - left. reflexivity.
  - reflexivity.
Defined.
(** ** The written numbers *)

(** X12. Lines 120-124.  A finite coordinate is written with an optional minus
    sign, at least one integer digit, a point and exactly six decimals.  A
    coordinate that is not finite (an offset can overflow) is written as
    nan, inf or -inf. *)
Theorem fmt6_fixed_or_special (x : float) :
  if is_finite x then is_fixed6 (fmt6 x) = true
  else fmt6 x = "nan" \/ fmt6 x = "inf" \/ fmt6 x = "-inf".
Proof.
  destruct (is_finite x) eqn:E; [apply fmt6_fixed; assumption|].
  unfold is_finite in E. unfold fmt6.
  destruct (Prim2SF x) as [s|s| |s m e]; try discriminate; [destruct s|]; auto.
Qed.

Lemma split_on_word (c : ascii) (a r : string) :
  has_char c a = false ->
  split_on c (a ++ String c r) = a :: split_on c r.
Proof.
  induction a as [|x a IH]; intro H; simpl.
  - rewrite Ascii.eqb_refl. reflexivity.
  - simpl in H. apply orb_false_elim in H as [Hx Ha].
    rewrite Hx, (IH Ha). reflexivity.
Qed.

Lemma split_on_last (c : ascii) (a : string) :
  has_char c a = false -> split_on c a = [a].
Proof.
  induction a as [|x a IH]; intro H; simpl; [reflexivity|].
  simpl in H. apply orb_false_elim in H as [Hx Ha].
  rewrite Hx, (IH Ha). reflexivity.
Qed.

Lemma fmt6_no_space (x : float) : has_char " " (fmt6 x) = false.
Proof. exact (all_chars_has_char _ " " _ (fmt6_chars x) eq_refl). Qed.

(** X13. Lines 120-124.  [fmt_pos] writes three numbers and [fmt_quat] four,
    separated by single spaces and nothing else: splitting the text at the
    spaces gives back the formatted components, in order. *)
Theorem fmt_pos_quat_words (p : vec3) (q : quat) :
  (let '(x, y, z) := p in
   split_on " " (fmt_pos p) = [fmt6 x; fmt6 y; fmt6 z]) /\
  (let '(w, x, y, z) := q in
   split_on " " (fmt_quat q) = [fmt6 w; fmt6 x; fmt6 y; fmt6 z]).
Proof.
  destruct p as [[x y] z], q as [[[w a] b] c]. unfold fmt_pos, fmt_quat.
  split.
  - change (" " ++ fmt6 y ++ " " ++ fmt6 z)
      with (String " " (fmt6 y ++ String " " (fmt6 z))).
    rewrite !split_on_word by apply fmt6_no_space.
    rewrite split_on_last by apply fmt6_no_space. reflexivity.
  - change (" " ++ fmt6 a ++ " " ++ fmt6 b ++ " " ++ fmt6 c)
      with (String " " (fmt6 a ++ String " " (fmt6 b ++ String " " (fmt6 c)))).
    rewrite !split_on_word by apply fmt6_no_space.
    rewrite split_on_last by apply fmt6_no_space. reflexivity.
Qed.

(** ** Rounding to six decimals *)

Lemma round_half_even_near (num den : Z) :
  (0 < den)%Z ->
  (2 * Z.abs (round_half_even num den * den - num) <= den)%Z.
Proof.
  intro Hd. unfold round_half_even.
  pose proof (Z.div_mod num den) as Hdm.
  pose proof (Z.mod_pos_bound num den Hd) as Hr.
  assert (Hne : den <> 0%Z) by lia. specialize (Hdm Hne).
  set (q := (num / den)%Z) in *. set (r := (num mod den)%Z) in *.
  destruct (Z.compare_spec (2 * r) den); [destruct (Z.even q)| |]; nia.
Qed.

Lemma round_half_even_nonneg (num den : Z) :
  (0 <= num)%Z -> (0 < den)%Z -> (0 <= round_half_even num den)%Z.
Proof.
  intros Hn Hd. unfold round_half_even.
  assert (0 <= num / den)%Z by (apply Z.div_pos; lia).
  destruct (2 * (num mod den) ?= den)%Z; [destruct (Z.even _)| |]; lia.
Qed.

Lemma scaled6_nonneg (m : positive) (e : Z) : (0 <= scaled6 m e)%Z.
Proof.
  unfold scaled6. destruct (Z.leb_spec 0 e).
  - assert (0 < 2 ^ e)%Z by (apply Z.pow_pos_nonneg; lia). nia.
  - apply round_half_even_nonneg; [lia|]. apply Z.pow_pos_nonneg; lia.
Qed.

Lemma digits_value_app (a b : string) (acc : Z) :
  digits_value (a ++ b) acc
  = match digits_value a acc with
    | Some v => digits_value b v
    | None => None
    end.
Proof.
  revert acc. induction a as [|c a IH]; intro acc; [reflexivity|].
  simpl. destruct (is_digit c); [apply IH | reflexivity].
Qed.

Lemma digit_value (d : Z) :
  (0 <= d < 10)%Z ->
  is_digit (digit d) = true /\ (Z.of_nat (nat_of_ascii (digit d)) - 48 = d)%Z.
Proof.
  intro H.
  assert (d = 0 \/ d = 1 \/ d = 2 \/ d = 3 \/ d = 4 \/ d = 5 \/ d = 6
          \/ d = 7 \/ d = 8 \/ d = 9)%Z as Hd by lia.
  repeat (destruct Hd as [->|Hd]; [split; reflexivity|]). subst d.
  split; reflexivity.
Qed.

Lemma digits_value_digit (d : Z) (s : string) (acc : Z) :
  (0 <= d < 10)%Z ->
  digits_value (String (digit d) s) acc = digits_value s (10 * acc + d).
Proof.
  intro H. destruct (digit_value d H) as [H1 H2].
  cbn [digits_value]. rewrite H1, H2. reflexivity.
Qed.

Lemma digits_value_frac6 (b acc : Z) :
  (0 <= b < 10 ^ 6)%Z ->
  digits_value (frac6 b) acc = Some (acc * 10 ^ 6 + b)%Z.
Proof.
  intro H. unfold frac6.
  rewrite !digits_value_digit by (apply Z.mod_pos_bound; lia).
  cbn [digits_value]. f_equal.
  change (10 ^ 6)%Z with 1000000%Z in *.
  Z.to_euclidean_division_equations. lia.
Qed.

Lemma digits_value_uint (d : Decimal.uint) (acc : Z) :
  digits_value (NilEmpty.string_of_uint d) acc = Some (uint_value d acc).
Proof.
  revert acc.
  induction d; intro acc; cbn [NilEmpty.string_of_uint uint_value];
    [reflexivity|..].
  - change "0"%char with (digit 0). rewrite digits_value_digit, IHd by lia.
    do 2 f_equal; lia.
  - change "1"%char with (digit 1). rewrite digits_value_digit, IHd by lia.
    reflexivity.
  - change "2"%char with (digit 2). rewrite digits_value_digit, IHd by lia.
    reflexivity.
  - change "3"%char with (digit 3). rewrite digits_value_digit, IHd by lia.
    reflexivity.
  - change "4"%char with (digit 4). rewrite digits_value_digit, IHd by lia.
    reflexivity.
  - change "5"%char with (digit 5). rewrite digits_value_digit, IHd by lia.
    reflexivity.
  - change "6"%char with (digit 6). rewrite digits_value_digit, IHd by lia.
    reflexivity.
  - change "7"%char with (digit 7). rewrite digits_value_digit, IHd by lia.
    reflexivity.
  - change "8"%char with (digit 8). rewrite digits_value_digit, IHd by lia.
    reflexivity.
  - change "9"%char with (digit 9). rewrite digits_value_digit, IHd by lia.
    reflexivity.
Qed.

Lemma uint_value_pos (d : Decimal.uint) (acc : positive) :
  uint_value d (Zpos acc) = Zpos (Pos.of_uint_acc d acc).
Proof.
  revert acc.
  induction d; intro acc; cbn [uint_value Pos.of_uint_acc];
    try reflexivity; rewrite <- IHd; f_equal; lia.
Qed.

Lemma uint_value_N (d : Decimal.uint) : uint_value d 0 = Z.of_N (Pos.of_uint d).
Proof.
  induction d; cbn [uint_value Pos.of_uint]; try reflexivity;
    [exact IHd | change (10 * 0 + ?k)%Z with k; apply uint_value_pos ..].
Qed.

Lemma digits_value_int_digits (a : Z) :
  (0 <= a)%Z -> digits_value (int_digits a) 0 = Some a.
Proof.
  intro H. unfold int_digits, NilZero.string_of_uint.
  assert (Hv : uint_value (N.to_uint (Z.to_N a)) 0 = a).
  { rewrite uint_value_N. change (Pos.of_uint (N.to_uint (Z.to_N a)))
      with (N.of_uint (N.to_uint (Z.to_N a))).
    rewrite DecimalN.Unsigned.of_to. apply Z2N.id. assumption. }
  destruct (N.to_uint (Z.to_N a)); cbv beta iota;
    [cbn in Hv; subst a; reflexivity | rewrite digits_value_uint, Hv; reflexivity ..].
Qed.

Lemma fmt6_digits (n : Z) :
  (0 <= n)%Z ->
  digits_value (int_digits (n / 10 ^ 6) ++ frac6 (n mod 10 ^ 6)) 0 = Some n.
Proof.
  intro H. rewrite digits_value_app, digits_value_int_digits
    by (apply Z.div_pos; lia).
  rewrite digits_value_frac6 by (apply Z.mod_pos_bound; lia).
  f_equal. pose proof (Z.div_mod n (10 ^ 6)). lia.
Qed.

(** X14. Lines 120-124.  The digits written for a finite non-zero coordinate
    [m * 2^e] are those of the integer [N] nearest to a million times its
    magnitude: exactly that product when it is an integer, and otherwise
    within half a unit of the sixth decimal, so the text read back differs
    from the stored value by at most 0.0000005. *)
Theorem fmt6_rounds_to_nearest (x : float) (s : bool) (m : positive) (e : Z) :
  Prim2SF x = S754_finite s m e ->
  exists N ip fp,
    fmt6 x = sign_text s ++ ip ++ "." ++ fp /\
    digits_value (ip ++ fp) 0 = Some N /\
    if (0 <=? e)%Z then N = (Zpos m * 2 ^ e * 10 ^ 6)%Z
    else (2 * Z.abs (N * 2 ^ (- e) - Zpos m * 10 ^ 6) <= 2 ^ (- e))%Z.
Proof.
  intro Hx. exists (scaled6 m e).
  exists (int_digits (scaled6 m e / 10 ^ 6)), (frac6 (scaled6 m e mod 10 ^ 6)).
  split; [unfold fmt6; rewrite Hx; reflexivity|].
  split; [apply fmt6_digits, scaled6_nonneg|].
  unfold scaled6. destruct (Z.leb_spec 0 e); [reflexivity|].
  apply round_half_even_near. apply Z.pow_pos_nonneg; lia.
Qed.

Lemma fmt6_rounds_to_nearest_sample :
  exists N ip fp,
    fmt6 tenth = sign_text false ++ ip ++ "." ++ fp /\
    digits_value (ip ++ fp) 0 = Some N /\
    if (0 <=? -56)%Z then N = (7205759403792794 * 2 ^ (-56) * 10 ^ 6)%Z
    else (2 * Z.abs (N * 2 ^ (- -56) - 7205759403792794 * 10 ^ 6) <= 2 ^ (- -56))%Z.
Proof.
  apply (fmt6_rounds_to_nearest tenth false 7205759403792794 (-56)).
  vm_compute. reflexivity.
Defined.
(** ** The mate analysis of [explore_assembly.py] *)

Import Explore.

Lemma analyze_feature_cases (an : Analysis) (feat : Feature) :
  analyze_feature an feat
  = if active_mate feat
    then {| joints := joints an ++ [joint_info_of feat];
            potential_issues :=
              if is_unknown feat
              then potential_issues an ++ [issue_of feat]
              else potential_issues an |}
    else an.
Proof.
  unfold analyze_feature, active_mate.
  destruct (option_string_eqb (featureType feat) (Some "mate")); [|reflexivity].
  destruct (suppressed feat); reflexivity.
Qed.

Lemma analyze_fold (l : list Feature) (an : Analysis) :
  fold_left analyze_feature l an
  = {| joints := joints an ++ map joint_info_of (filter active_mate l);
       potential_issues :=
         potential_issues an
         ++ map issue_of (filter (fun f => andb (active_mate f) (is_unknown f)) l) |}.
Proof.
  revert an. induction l as [|f l IH]; intro an.
  - simpl. rewrite !app_nil_r. destruct an; reflexivity.
  - simpl. rewrite IH, analyze_feature_cases.
    destruct (active_mate f); simpl; [|reflexivity].
    destruct (is_unknown f); simpl; rewrite <- ?app_assoc; reflexivity.
Qed.

(** X15. Lines 383-416.  The analysis holds one joint entry for every mate
    feature that is not suppressed, in the order of the feature list, also
    for the mates without a MuJoCo joint; and one issue, in the same order,
    for every such mate whose type has no entry in the mapping.  Features
    of another type and suppressed mates leave no trace. *)
Theorem analyze_mates_entries (feature_list : list Feature) :
  joints (analyze_mates feature_list)
    = map joint_info_of (filter active_mate feature_list) /\
  potential_issues (analyze_mates feature_list)
    = map issue_of
        (filter (fun f => andb (active_mate f) (is_unknown f)) feature_list).
Proof.
  unfold analyze_mates. rewrite analyze_fold. split; reflexivity.
Qed.

Lemma classify_mapped (t : string) :
  In t mapped_types -> dict_get mate_mapping t <> None.
Proof.
  unfold mapped_types. intro H.
  repeat (destruct H as [<-|H]; [discriminate|]). destruct H.
Qed.

Lemma classify_unmapped (t : string) :
  ~ In t mapped_types -> dict_get mate_mapping t = None.
Proof.
  unfold mapped_types, mate_mapping. intro H. cbn [dict_get].
  repeat match goal with
         | |- context [String.eqb ?a t] =>
             let E := fresh "E" in
             destruct (String.eqb_spec a t) as [E|E];
             [exfalso; apply H; rewrite <- E; simpl; tauto|]
         end.
  reflexivity.
Qed.

(** X16. Lines 373-381, 403.  A type tag is classified as "unknown" exactly when
    it is none of the seven keys of the mapping; tags match by case, so
    "revolute" is unknown; FASTENED and PARALLEL are classified as None,
    not as unknown, and raise no issue. *)
Theorem unknown_iff_unmapped (t : string) :
  (mujoco (classify t) = Some "unknown" <-> ~ In t mapped_types) /\
  (mujoco (classify t) = None <-> t = "FASTENED" \/ t = "PARALLEL").
Proof.
  assert (D : In t mapped_types \/ ~ In t mapped_types).
  { destruct (in_dec string_dec t mapped_types); auto. }
  unfold classify. destruct D as [Hin|Hout].
  - split.
    + split; [|contradiction]. intro H. exfalso. revert H.
      unfold mapped_types in Hin.
      repeat (destruct Hin as [<-|Hin]; [discriminate|]). destruct Hin.
    + unfold mapped_types in Hin.
      repeat (destruct Hin as [<-|Hin];
              [simpl; split; [try discriminate; auto | intros [E|E];
                 first [reflexivity | discriminate E]]|]).
      destruct Hin.
  - rewrite (classify_unmapped t Hout). simpl. split.
    + split; auto.
    + split; [discriminate|]. intros [->| ->]; exfalso; apply Hout;
        unfold mapped_types; simpl; tauto.
Qed.
Lemma scan_fold_fst (l : list MateParameter) (st : string * dict string) :
  fst (fold_left scan_parameter l st)
  = match find is_mate_type (rev l) with
    | Some p => get (value p) "UNKNOWN"
    | None => fst st
    end.
Proof.
  revert st. induction l as [|p l IH] using rev_ind; intro st; [reflexivity|].
  rewrite fold_left_app, rev_unit. simpl.
  unfold scan_parameter at 1. unfold is_mate_type.
  destruct (String.eqb (get (parameterId p) "") "mateType"); [reflexivity|].
  destruct (contains "limit" _); simpl; apply IH.
Qed.

(** X17. Lines 394-399.  The type tag of a mate is the value of its last
    parameter with the id mateType: UNKNOWN when that parameter has no
    value, and UNKNOWN when the mate has no such parameter. *)
Theorem mate_type_is_last_parameter (feat : Feature) :
  mate_type_of feat
  = match find is_mate_type (rev (parameters feat)) with
    | Some p => get (value p) "UNKNOWN"
    | None => "UNKNOWN"
    end.
Proof.
  unfold mate_type_of, mate_type_and_limits. apply scan_fold_fst.
Qed.

Lemma dict_set_not_nil {V} (d : dict V) (k : string) (v : V) : dict_set d k v <> [].
Proof.
  destruct d as [|[k' v'] d]; simpl; [discriminate|].
  destruct (String.eqb k' k); discriminate.
Qed.

Lemma mate_type_not_limit (p : MateParameter) :
  is_mate_type p = true -> is_limit p = false.
Proof.
  unfold is_mate_type, is_limit. intro H.
  apply String.eqb_eq in H. rewrite H. reflexivity.
Qed.

Lemma scan_fold_snd (l : list MateParameter) (st : string * dict string) :
  match snd (fold_left scan_parameter l st) with
  | [] => false
  | _ => true
  end
  = orb (match snd st with [] => false | _ => true end) (existsb is_limit l).
Proof.
  revert st. induction l as [|p l IH]; intro st.
  - simpl. rewrite orb_false_r. reflexivity.
  - simpl. rewrite IH. unfold scan_parameter.
    destruct (String.eqb (get (parameterId p) "") "mateType") eqn:Em.
    + rewrite (mate_type_not_limit p Em). reflexivity.
    + destruct (is_limit p) eqn:El; pose proof El as El';
        unfold is_limit in El'; rewrite El'; simpl.
      * pose proof (dict_set_not_nil (snd st) (get (parameterId p) "")
                      (get (value p) (get (expression p) ""))) as Hn.
        destruct (dict_set _ _ _); [contradiction|].
        destruct (snd st); reflexivity.
      * reflexivity.
Qed.

(** X18. Lines 395-411.  A joint entry has limits exactly when some parameter
    of the mate has "limit" in its lower-cased id, whatever the value of
    that parameter is (also a limit that is switched off counts). *)
Theorem has_limits_iff_limit_parameter (feat : Feature) :
  has_limits (joint_info_of feat) = existsb is_limit (parameters feat).
Proof.
  unfold joint_info_of, mate_type_and_limits. simpl has_limits.
  rewrite scan_fold_snd. reflexivity.
Qed.

(** X19. Lines 383-416.  A mate that is not suppressed and whose type tag is
    none of the seven keys of the mapping, SCREW say, gets a joint entry
    with the MuJoCo type "unknown" and one issue that names the tag and the
    mate; the analysis goes on with the features behind it. *)
Theorem unknown_mate_is_reported (l1 l2 : list Feature) (feat : Feature) :
  active_mate feat = true ->
  ~ In (mate_type_of feat) mapped_types ->
  let an := analyze_mates (l1 ++ feat :: l2) in
  In (issue_of feat) (potential_issues an) /\
  In (joint_info_of feat) (joints an) /\
  mujoco_type (joint_info_of feat) = Some "unknown" /\
  List.length (joints an)
    = List.length (joints (analyze_mates l1)) + 1
      + List.length (joints (analyze_mates l2)).
Proof.
  intros Hact Hun an. subst an.
  assert (Hu : is_unknown feat = true).
  { unfold is_unknown, classify. rewrite (classify_unmapped _ Hun). reflexivity. }
  unfold analyze_mates. rewrite !analyze_fold. cbn [joints potential_issues app].
  rewrite !filter_app. simpl. rewrite Hact, Hu. simpl.
  rewrite !map_app. simpl.
  repeat split.
  - apply in_or_app. right. left. reflexivity.
  - apply in_or_app. right. left. reflexivity.
  - unfold classify. rewrite (classify_unmapped _ Hun). reflexivity.
  - rewrite length_app. simpl. rewrite !length_map. lia.
Qed.

Lemma unknown_mate_is_reported_sample :
  let an := analyze_mates ([] ++ screw_mate :: []) in
  In (issue_of screw_mate) (potential_issues an) /\
  In (joint_info_of screw_mate) (joints an) /\
  mujoco_type (joint_info_of screw_mate) = Some "unknown" /\
  List.length (joints an)
    = List.length (joints (analyze_mates [])) + 1
      + List.length (joints (analyze_mates [])).
Proof.
  apply (unknown_mate_is_reported [] [] screw_mate).
  - reflexivity.
  - vm_compute. intros H.
    repeat (destruct H as [H|H]; [discriminate H|]). exact H.
Defined.
(** ** The summary of the mate types *)

Lemma count_fold (l : list JointInfo) (d : dict nat) (t : string) :
  dict_get (fold_left count_step l d) t
  = match dict_get d t, count_type t l with
    | Some n, c => Some (n + c)
    | None, 0 => None
    | None, S c => Some (S c)
    end.
Proof.
  revert d. induction l as [|j l IH]; intro d.
  - unfold count_type. simpl. destruct (dict_get d t); [f_equal; lia | reflexivity].
  - cbn [fold_left]. rewrite IH. unfold count_step, count_type.
    cbn [filter]. destruct (String.eqb_spec (onshape_type j) t) as [->|Hne].
    + rewrite dict_get_set_same. cbn [List.length].
      destruct (dict_get d t); simpl; f_equal; lia.
    + rewrite dict_get_set_other by assumption. reflexivity.
Qed.

Lemma sum_values_step (d : dict nat) (k : string) :
  sum_values (dict_set d k (get (dict_get d k) 0 + 1)) = S (sum_values d).
Proof.
  induction d as [|[k' v'] d IH]; [reflexivity|].
  cbn [dict_set dict_get]. destruct (String.eqb k' k).
  - simpl. lia.
  - simpl in *. rewrite IH. lia.
Qed.

(** X20. Lines 419-423.  The summary counts, for each Onshape type, the joint
    entries of that type: a type without an entry has no count (never a
    count of zero), and the counts add up to the number of joint
    entries. *)
Theorem mate_type_counts_correct (js : list JointInfo) (t : string) :
  dict_get (mate_type_counts js) t
    = (if Nat.eqb (count_type t js) 0 then None else Some (count_type t js)) /\
  sum_values (mate_type_counts js) = List.length js.
Proof.
  split.
  - unfold mate_type_counts. rewrite count_fold. simpl.
    destruct (count_type t js); reflexivity.
  - unfold mate_type_counts.
    assert (G : forall l d, sum_values (fold_left count_step l d)
                            = sum_values d + List.length l).
    { induction l as [|j l IH]; intro d; simpl; [lia|].
      rewrite IH. unfold count_step. rewrite sum_values_step. lia. }
    rewrite G. reflexivity.
Qed.

(** ** [explore_transforms] *)

Lemma print_position_cases (o : PlacedOccurrence) :
  print_position o = if short_transform o then Raise IndexError else Ok tt.
Proof.
  unfold print_position, short_transform.
  destruct (Nat.eqb (List.length (po_path o)) 1); [|reflexivity].
  destruct (po_transform o) as [|x0 t]; [reflexivity|].
  do 14 (destruct t as [|? t]; [reflexivity|]). reflexivity.
Qed.

Lemma explore_transforms_fold (l : list PlacedOccurrence) (d : dict PlacedOccurrence) :
  explore_transforms_from l d
  = if existsb short_transform l then Raise IndexError
    else Ok (fold_left (fun d o => dict_set d (join_path (po_path o)) o) l d).
Proof.
  revert d. induction l as [|o l IH]; intro d; [reflexivity|].
  cbn [explore_transforms_from existsb fold_left].
  rewrite print_position_cases.
  destruct (short_transform o); [reflexivity|]. simpl. apply IH.
Qed.

(** X21. Lines 231-266.  [explore_transforms] raises an IndexError, and saves
    nothing, exactly when some top-level occurrence (a path of length one)
    has a transform with 1 to 14 values; an empty transform is skipped and
    deeper occurrences are never indexed.  Otherwise it returns a
    dictionary in which the key of the path joined by "/" holds the last
    occurrence with that joined path. *)
Theorem explore_transforms_cases (occurrences : list PlacedOccurrence) :
  if existsb short_transform occurrences
  then explore_transforms occurrences = Raise IndexError
  else exists transforms,
      explore_transforms occurrences = Ok transforms /\
      forall k, dict_get transforms k
                = last_by (fun o => join_path (po_path o)) k occurrences.
Proof.
  unfold explore_transforms. rewrite explore_transforms_fold.
  destruct (existsb short_transform occurrences); [reflexivity|].
  eexists. split; [reflexivity|]. intro k.
  rewrite (dict_of_list_get (fun o => join_path (po_path o)) (fun o => o)).
  destruct (last_by _ k occurrences); reflexivity.
Qed.

(** ** The positions in the scene text *)

Lemma upto_field (c : ascii) (h r : string) :
  has_char c h = false -> upto c (h ++ String c r) = Some h.
Proof.
  induction h as [|a h IH]; intro H; simpl.
  - rewrite Ascii.eqb_refl. reflexivity.
  - simpl in H. apply orb_false_elim in H as [Ha Hh].
    rewrite Ha, (IH Hh). reflexivity.
Qed.

Lemma fmt_pos_no_quote (p : vec3) : has_char dquote (fmt_pos p) = false.
Proof.
  destruct p as [[x y] z]. unfold fmt_pos.
  rewrite !has_char_app.
  rewrite !(all_chars_has_char _ dquote _ (fmt6_chars _) eq_refl). reflexivity.
Qed.

Lemma field_after_flatten (c : ascii) (p : string) (l : list piece) (f : field) :
  fields_free c l -> lits_clean (String c p) l = true ->
  field_after (String c p) l = Some f ->
  has_char dquote (render_field f) = false ->
  match after (String c p) (flatten l) with
  | Some r => upto dquote r
  | None => None
  end = Some (render_field f).
Proof.
  intros Hf Hc Hfa Hq. rewrite (after_flatten _ _ _ Hf Hc).
  unfold field_after in Hfa.
  destruct (after_in (String c p) l) as [[r rest]|]; [|discriminate].
  destruct r; [|discriminate].
  destruct rest as [|[s|g] rest]; try discriminate.
  destruct rest as [|[s|g'] rest]; try discriminate.
  destruct s as [|a s]; [discriminate|].
  destruct (Ascii.eqb_spec a dquote) as [->|]; [|discriminate].
  injection Hfa as ->. simpl.
  apply upto_field. assumption.
Qed.

(** X22. Lines 162-181.  In the written scene, the [pos] attribute of each of
    the four body elements is the [:.6f] text of the position computed for
    it: the world position for the motor, the offset from the parent for
    the other three. *)
Theorem scene_body_positions
    (as_quat : list (list float) -> option quat)
    (root : RootAssembly) (meshes : list MeshEntry) (out : string) :
  manifest_clean meshes ->
  main as_quat root meshes = Ok out ->
  exists occs l,
    occurrences_dict root = Ok occs /\
    layout as_quat (instances_dict root) occs (mesh_map meshes) = Ok l /\
    forall b, body_pos_text b out = Some (fmt_pos (local_pos l b)).
Proof.
  intros Hc H. apply main_Ok in H as (occs & l & Hoccs & Hl & ->).
  exists occs, l. repeat split; auto.
  pose proof (mjcf_fields_free l (layout_lt_free _ _ _ _ _ Hc Hl)) as Hfree.
  intro b. unfold body_pos_text, mjcf.
  destruct b;
    (apply (field_after_flatten "<" _ _ (FPos _) Hfree);
     [vm_compute; reflexivity | vm_compute; reflexivity | apply fmt_pos_no_quote]).
Qed.

Lemma scene_body_positions_sample :
  exists occs l,
    occurrences_dict sample_assembly = Ok occs /\
    layout sample_as_quat (instances_dict sample_assembly) occs
      (mesh_map sample_meshes) = Ok l /\
    forall b, body_pos_text b (mjcf sample_layout) = Some (fmt_pos (local_pos l b)).
Proof.
  apply (scene_body_positions sample_as_quat sample_assembly sample_meshes).
  - repeat constructor.
  - vm_compute. reflexivity.
Defined.
(** ** Occurrences without an instance, parts without a mesh *)

Lemma dict_get_In {V} (d : dict V) (k : string) (v : V) :
  dict_get d k = Some v -> In (k, v) d.
Proof.
  induction d as [|[k' v'] d IH]; [discriminate|].
  simpl. destruct (String.eqb_spec k' k) as [->|Hk].
  - intro H. injection H as <-. left. reflexivity.
  - intro H. right. apply IH. assumption.
Qed.

(** X23. Lines 73-76.  The run completes only if every occurrence belongs to a
    listed instance, also an occurrence that is none of the four parts;
    and the last occurrence with a given id has a transform of at least
    twelve values. *)
Theorem main_requires_known_occurrences
    (as_quat : list (list float) -> option quat)
    (root : RootAssembly) (meshes : list MeshEntry) (out : string)
    (o : Occurrence) :
  main as_quat root meshes = Ok out ->
  In o (occurrences root) ->
  exists inst o',
    In inst (instances root) /\ inst_id inst = occ_key o /\
    last_by occ_key (occ_key o) (occurrences root) = Some o' /\
    12 <= List.length (occ_transform o').
Proof.
  intros H Hin. apply main_reports in H as (occs & Hoccs & Hrep & _).
  pose proof (occurrences_dict_get _ _ (occ_key o) Hoccs) as Hget.
  destruct (last_by occ_key (occ_key o) (occurrences root)) as [o'|] eqn:E.
  - apply dict_get_In in Hget.
    unfold report_positions in Hrep.
    apply (for_each_Ok _ _ _ Hrep) in Hget. simpl in Hget.
    bind_inv Hget. bind_inv Hget.
    apply (subscript_Ok _ (Some (occ_key o))) in Ha as (s & Hs & Hinst).
    injection Hs as <-. rewrite instances_dict_get in Hinst.
    apply last_by_In in Hinst as [Hi1 Hi2].
    exists a, o'. repeat split; auto.
    eapply transform_Ok_length. eassumption.
  - exfalso. rewrite last_by_None in E. apply (E o Hin). reflexivity.
Qed.

Lemma main_requires_known_occurrences_sample :
  exists inst o',
    In inst (instances sample_assembly) /\
    inst_id inst = occ_key {| occ_path := ["H"]; occ_fixed := false;
                              occ_transform := translation tenth 0 0 |} /\
    last_by occ_key
      (occ_key {| occ_path := ["H"]; occ_fixed := false;
                  occ_transform := translation tenth 0 0 |})
      (occurrences sample_assembly) = Some o' /\
    12 <= List.length (occ_transform o').
Proof.
  apply (main_requires_known_occurrences sample_as_quat sample_assembly
           sample_meshes (mjcf sample_layout)).
  - vm_compute. reflexivity.
  - right. left. reflexivity.
Defined.

Lemma main_body_ids (as_quat : list (list float) -> option quat)
    (root : RootAssembly) (meshes : list MeshEntry) (out : string) (b : body) :
  main as_quat root meshes = Ok out ->
  exists id, body_id (named_ids (instances_dict root)) b = Some id.
Proof.
  intro H. apply main_Ok in H as (occs & l & _ & Hl & _).
  destruct (layout_parts _ _ _ _ _ b Hl) as (pose & file & _ & Hfile).
  apply subscript_Ok in Hfile as (id & Hid & _). eauto.
Qed.

Lemma subscript_mesh (meshes : list MeshEntry) (id : string) :
  (exists f, subscript (mesh_map meshes) (Some id) = Ok f) \/
  (subscript (mesh_map meshes) (Some id) = Raise (KeyError (Some id)) /\
   forall m, In m meshes -> instanceId m <> id).
Proof.
  unfold subscript. rewrite mesh_map_get.
  destruct (last_by instanceId id meshes) as [m|] eqn:E; simpl.
  - left. eauto.
  - right. split; [reflexivity|]. apply last_by_None. assumption.
Qed.

(** X24. Lines 151-154.  If the run completes with one manifest, then with a
    manifest that lacks the entry of one of the four parts it ends with the
    KeyError of the id of such a part, and no scene is written: a body is
    never written without its mesh. *)
Theorem main_missing_mesh
    (as_quat : list (list float) -> option quat)
    (root : RootAssembly) (meshes meshes' : list MeshEntry) (out : string)
    (b : body) (id : string) :
  main as_quat root meshes = Ok out ->
  body_id (named_ids (instances_dict root)) b = Some id ->
  (forall m, In m meshes' -> instanceId m <> id) ->
  exists id',
    main as_quat root meshes' = Raise (KeyError (Some id')) /\
    (forall m, In m meshes' -> instanceId m <> id').
Proof.
  intros H Hid Hmiss.
  pose proof (fun b => main_body_ids _ _ _ _ b H) as Hparts.
  unfold main in *.
  bind_inv H. bind_inv H. bind_inv H. bind_inv H. bind_inv H.
  rewrite Ha. cbn [bind]. rewrite Ha0. cbn [bind]. rewrite Ha1. cbn [bind].
  rewrite Ha2. cbn [bind].
  clear Ha0 Ha1 Ha2 H.
  unfold layout in *.
  apply bind_Ok in Ha3 as (pm & Hpm & Ha3). apply bind_Ok in Ha3 as (ph & Hph & Ha3).
  apply bind_Ok in Ha3 as (p1 & Hp1 & Ha3). apply bind_Ok in Ha3 as (p2 & Hp2 & Ha3).
  rewrite Hpm, Hph, Hp1, Hp2. cbn [bind].
  destruct (Hparts Motor) as (im & Him).
  destruct (Hparts Horn) as (ih & Hih).
  destruct (Hparts Joint1) as (i1 & Hi1).
  destruct (Hparts Joint2) as (i2 & Hi2).
  simpl in Him, Hih, Hi1, Hi2. rewrite Him, Hih, Hi1, Hi2.
  assert (Hb : id = im \/ id = ih \/ id = i1 \/ id = i2).
  { destruct b; simpl in Hid; rewrite Hid in *.
    - left. congruence.
    - do 3 right. congruence.
    - right. left. congruence.
    - right. right. left. congruence. }
  destruct (subscript_mesh meshes' im) as [[fm Hm]|[Hm Hn]];
    [rewrite Hm; cbn [bind] | exists im; rewrite Hm; auto].
  destruct (subscript_mesh meshes' ih) as [[fh Hh]|[Hh Hn]];
    [rewrite Hh; cbn [bind] | exists ih; rewrite Hh; auto].
  destruct (subscript_mesh meshes' i1) as [[f1 H1]|[H1 Hn]];
    [rewrite H1; cbn [bind] | exists i1; rewrite H1; auto].
  destruct (subscript_mesh meshes' i2) as [[f2 H2]|[H2 Hn]];
    [rewrite H2; cbn [bind] | exists i2; rewrite H2; auto].
  exfalso.
  assert (Hsome : forall k f, subscript (mesh_map meshes') (Some k) = Ok f ->
                              exists m, In m meshes' /\ instanceId m = k).
  { intros k f Hk. apply subscript_Ok in Hk as (s & Hs & Hk).
    injection Hs as <-. rewrite mesh_map_get in Hk.
    destruct (last_by instanceId k meshes') as [m|] eqn:E; [|discriminate].
    apply last_by_In in E. exists m. exact E. }
  destruct Hb as [->|[->|[->| ->]]];
    [destruct (Hsome _ _ Hm) as (m & Hin & He)
    |destruct (Hsome _ _ Hh) as (m & Hin & He)
    |destruct (Hsome _ _ H1) as (m & Hin & He)
    |destruct (Hsome _ _ H2) as (m & Hin & He)];
    exact (Hmiss m Hin He).
Qed.

Lemma main_missing_mesh_sample :
  exists id',
    main sample_as_quat sample_assembly
      [ {| instanceId := "M"; filename := "M.stl" |};
        {| instanceId := "A"; filename := "A.stl" |};
        {| instanceId := "B"; filename := "B.stl" |} ]
    = Raise (KeyError (Some id')) /\
    (forall m,
        In m [ {| instanceId := "M"; filename := "M.stl" |};
               {| instanceId := "A"; filename := "A.stl" |};
               {| instanceId := "B"; filename := "B.stl" |} ] ->
        instanceId m <> id').
Proof.
  apply (main_missing_mesh sample_as_quat sample_assembly sample_meshes
           _ (mjcf sample_layout) Horn "H").
  - vm_compute. reflexivity.
  - reflexivity.
  - intros m [<-|[<-|[<-|[]]]]; discriminate.
Defined.
(** ** Orientations and mesh files *)

Lemma layout_orientations_and_meshes
    (as_quat : list (list float) -> option quat)
    (insts : dict Instance) (occs : dict Occurrence) (meshes : list MeshEntry)
    (l : Layout) (b : body) :
  layout as_quat insts occs (mesh_map meshes) = Ok l ->
  exists id wb qb m,
    body_id (named_ids insts) b = Some id /\
    world_pose as_quat occs (Some id) = Ok (wb, qb) /\
    local_quat l b = qb /\
    last_by instanceId id meshes = Some m /\
    mesh_file l b = filename m.
Proof.
  intro Hl. unfold layout in Hl.
  apply bind_Ok in Hl as ([wm qm] & Hpm & Hl).
  apply bind_Ok in Hl as ([wh qh] & Hph & Hl).
  apply bind_Ok in Hl as ([w1 q1] & Hp1 & Hl).
  apply bind_Ok in Hl as ([w2 q2] & Hp2 & Hl).
  apply bind_Ok in Hl as (fm & Hfm & Hl).
  apply bind_Ok in Hl as (fh & Hfh & Hl).
  apply bind_Ok in Hl as (f1 & Hf1 & Hl).
  apply bind_Ok in Hl as (f2 & Hf2 & Hl).
  injection Hl as <-.
  assert (G : forall k w q f,
             world_pose as_quat occs k = Ok (w, q) ->
             subscript (mesh_map meshes) k = Ok f ->
             exists id m, k = Some id /\
                          world_pose as_quat occs (Some id) = Ok (w, q) /\
                          last_by instanceId id meshes = Some m /\
                          f = filename m).
  { intros k w q f Hw Hf. apply subscript_Ok in Hf as (id & -> & Hf).
    rewrite mesh_map_get in Hf.
    destruct (last_by instanceId id meshes) as [m|] eqn:E; [|discriminate].
    injection Hf as <-. exists id, m. repeat split; auto. }
  destruct b; simpl.
  - destruct (G _ _ _ _ Hpm Hfm) as (id & m & Hk & Hw & Hm & ->).
    exists id, wm, qm, m. repeat split; auto.
  - destruct (G _ _ _ _ Hp2 Hf2) as (id & m & Hk & Hw & Hm & ->).
    exists id, w2, q2, m. repeat split; auto.
  - destruct (G _ _ _ _ Hph Hfh) as (id & m & Hk & Hw & Hm & ->).
    exists id, wh, qh, m. repeat split; auto.
  - destruct (G _ _ _ _ Hp1 Hf1) as (id & m & Hk & Hw & Hm & ->).
    exists id, w1, q1, m. repeat split; auto.
Qed.

(** ** Mates of another type *)

Lemma report_mates_skipped (insts : dict Instance) (l : list FeatureData) :
  (forall fd, In fd l -> mateType fd <> "CYLINDRICAL") ->
  for_each (report_mate insts) l = Ok tt.
Proof.
  intro H. induction l as [|fd l IH]; [reflexivity|].
  simpl. unfold report_mate at 1.
  destruct (String.eqb_spec (mateType fd) "CYLINDRICAL") as [E|E].
  - exfalso. apply (H fd); [left; reflexivity | exact E].
  - simpl. apply IH. intros x Hx. apply H. right. assumption.
Qed.

(** X26. Lines 79-94.  Mates whose type is not CYLINDRICAL (a revolute, a
    ball or a screw mate) are not looked at: an assembly whose mates are
    all of another type runs exactly as the same assembly without mates,
    to the same scene or to the same exception. *)
Theorem other_mates_are_ignored
    (as_quat : list (list float) -> option quat)
    (root : RootAssembly) (meshes : list MeshEntry) :
  (forall fd, In fd (features root) -> mateType fd <> "CYLINDRICAL") ->
  main as_quat root meshes = main as_quat (without_mates root) meshes.
Proof.
  intro H. unfold main.
  change (occurrences_dict (without_mates root)) with (occurrences_dict root).
  change (instances_dict (without_mates root)) with (instances_dict root).
  destruct (occurrences_dict root) as [occs|e]; [|reflexivity]. cbn [bind].
  change (base_part as_quat (without_mates root) (instances_dict root) occs)
    with (base_part as_quat root (instances_dict root) occs).
  destruct (base_part as_quat root (instances_dict root) occs); [|reflexivity].
  cbn [bind].
  destruct (report_positions as_quat (instances_dict root) occs); [|reflexivity].
  cbn [bind]. rewrite (report_mates_skipped _ _ H). reflexivity.
Qed.

Lemma other_mates_are_ignored_sample :
  main sample_as_quat
    {| instances := instances sample_assembly;
       occurrences := occurrences sample_assembly;
       features := [ mate "REVOLUTE" [0; 1; 0]%float "H" "M";
                     mate "SCREW" [0; 0; 1]%float "X" "Y" ] |} sample_meshes
  = main sample_as_quat
      (without_mates
         {| instances := instances sample_assembly;
            occurrences := occurrences sample_assembly;
            features := [ mate "REVOLUTE" [0; 1; 0]%float "H" "M";
                          mate "SCREW" [0; 0; 1]%float "X" "Y" ] |}) sample_meshes.
Proof.
  apply (other_mates_are_ignored sample_as_quat
           {| instances := instances sample_assembly;
              occurrences := occurrences sample_assembly;
              features := [ mate "REVOLUTE" [0; 1; 0]%float "H" "M";
                            mate "SCREW" [0; 0; 1]%float "X" "Y" ] |} sample_meshes).
  intros fd [<-|[<-|[]]]; discriminate.
Defined.

(** ** Text that every scene contains *)

Lemma starts_with_app_true (p s x : string) :
  starts_with p s = true -> starts_with p (s ++ x) = true.
Proof.
  revert s. induction p as [|a p IH]; intros s H; [reflexivity|].
  destruct s as [|b s]; [discriminate|]. simpl in *.
  destruct (Ascii.eqb a b); [apply IH; assumption | discriminate].
Qed.

Lemma contains_app_r (p s x : string) :
  contains p s = true -> contains p (s ++ x) = true.
Proof.
  induction s as [|c s IH]; intro H.
  - simpl in H. rewrite orb_false_r in H.
    destruct p; [destruct x; reflexivity | discriminate].
  - change (contains p (String c s ++ x))
      with (orb (starts_with p (String c s ++ x)) (contains p (s ++ x))).
    change (contains p (String c s))
      with (orb (starts_with p (String c s)) (contains p s)) in H.
    apply orb_prop in H as [H|H].
    + rewrite (starts_with_app_true _ _ _ H). reflexivity.
    + rewrite (IH H). apply orb_true_r.
Qed.

Lemma contains_app_l (p a s : string) :
  contains p s = true -> contains p (a ++ s) = true.
Proof.
  intro H. induction a as [|c a IH]; [exact H|].
  change (contains p (String c a ++ s))
    with (orb (starts_with p (String c a ++ s)) (contains p (a ++ s))).
  rewrite IH. apply orb_true_r.
Qed.

Lemma contains_flatten (p : string) (l : list piece) :
  lit_contains p l = true -> contains p (flatten l) = true.
Proof.
  induction l as [|x l IH]; [discriminate|].
  unfold lit_contains. simpl. intro H. apply orb_prop in H as [H|H].
  - destruct x as [s|f]; [|discriminate]. apply contains_app_r. exact H.
  - apply contains_app_l. apply IH. exact H.
Qed.

Lemma mjcf_contains_joint (l : Layout) : contains servo_joint_tag (mjcf l) = true.
Proof. unfold mjcf. apply contains_flatten. vm_compute. reflexivity. Qed.

(** ** Orientation and mesh file in the text *)

Lemma fmt_chars_free (c : ascii) (x : float) :
  fmt_char c = false -> has_char c (fmt6 x) = false.
Proof. intro H. exact (all_chars_has_char _ c _ (fmt6_chars x) H). Qed.

Lemma numeric_field_free (c : ascii) (f : field) :
  fmt_char c = false -> Ascii.eqb " " c = false ->
  match f with
  | FMesh _ => True
  | _ => has_char c (render_field f) = false
  end.
Proof.
  intros Hc Hs.
  assert (Hsp : has_char c " " = false) by (cbn [has_char]; rewrite Hs; reflexivity).
  destruct f as [file|[[x y] z]|[[[w x] y] z]]; [exact I| |];
    unfold render_field, fmt_pos, fmt_quat;
    rewrite !has_char_app, !Hsp, !fmt_chars_free by assumption; reflexivity.
Qed.

Lemma numeric_fields_free (c : ascii) (l : list piece) :
  fmt_char c = false -> Ascii.eqb " " c = false ->
  numeric_fields l = true -> fields_free c l.
Proof.
  intros Hc Hs. induction l as [|x l IH]; intro H; [constructor|].
  destruct x as [s|f].
  - constructor; [exact I | apply IH; exact H].
  - destruct f as [file|p|q]; [discriminate| |].
    + constructor; [exact (numeric_field_free c (FPos p) Hc Hs) | apply IH; exact H].
    + constructor; [exact (numeric_field_free c (FQuat q) Hc Hs) | apply IH; exact H].
Qed.

Lemma fmt_quat_no_quote (q : quat) : has_char dquote (fmt_quat q) = false.
Proof. exact (numeric_field_free dquote (FQuat q) eq_refl eq_refl). Qed.

Lemma quat_field_flatten (c : ascii) (p : string) (l : list piece) (f : field) :
  fields_free c l -> lits_clean (String c p) l = true ->
  quat_field_after (String c p) l = Some f ->
  has_char dquote (render_field f) = false ->
  match after (String c p) (flatten l) with
  | Some r =>
      match after quat_pattern r with
      | Some r' => upto dquote r'
      | None => None
      end
  | None => None
  end = Some (render_field f).
Proof.
  intros Hf Hc Hq Hd. rewrite (after_flatten _ _ _ Hf Hc).
  unfold quat_field_after in Hq.
  destruct (after_in (String c p) l) as [[r rest]|]; [|discriminate].
  destruct (numeric_fields rest) eqn:Hn; [|discriminate].
  destruct (lits_clean quat_pattern (Lit r :: rest)) eqn:Hl; [|discriminate].
  simpl in Hq. simpl option_map.
  change (r ++ flatten rest) with (flatten (Lit r :: rest)).
  apply (field_after_flatten "q" _ (Lit r :: rest) f); auto.
  constructor; [exact I|].
  apply numeric_fields_free; [reflexivity | reflexivity | exact Hn].
Qed.

Lemma mjcf_quat_text (l : Layout) (b : body) :
  lt_free l -> quat_text b (mjcf l) = Some (fmt_quat (local_quat l b)).
Proof.
  intro H. pose proof (mjcf_fields_free l H) as Hfree.
  unfold quat_text, mjcf.
  destruct b;
    (apply (quat_field_flatten "<" _ _ (FQuat _) Hfree);
     [vm_compute; reflexivity | vm_compute; reflexivity | apply fmt_quat_no_quote]).
Qed.

Lemma mjcf_mesh_file_text (l : Layout) (b : body) :
  lt_free l -> has_char dquote (mesh_file l b) = false ->
  mesh_file_text b (mjcf l) = Some (mesh_file l b).
Proof.
  intros H Hq. pose proof (mjcf_fields_free l H) as Hfree.
  unfold mesh_file_text, mjcf.
  destruct b;
    (apply (field_after_flatten "<" _ _ (FMesh _) Hfree);
     [vm_compute; reflexivity | vm_compute; reflexivity | exact Hq]).
Qed.

(** X25. Lines 115-118, 151-184.  In the text of the written scene, the
    [quat] attribute that carries the orientation of each body (on the body
    element for the motor, on the geom with the mesh of the part for the
    other three) is the [:.6f] text of the quaternion that
    [transform_to_pos_quat] returned for the world transform of the part:
    it is not made relative to the parent, unlike the position.  The
    [file] attribute of the mesh asset of each body is the file name of the
    last manifest entry with the id of the part.  Both are read back from
    the text, for a manifest whose file names hold neither the character
    that opens a tag nor a double quote. *)
Theorem scene_orientations_and_meshes
    (as_quat : list (list float) -> option quat)
    (root : RootAssembly) (meshes : list MeshEntry) (out : string) :
  manifest_plain meshes ->
  main as_quat root meshes = Ok out ->
  exists occs,
    occurrences_dict root = Ok occs /\
    forall b, exists id wb qb m,
      body_id (named_ids (instances_dict root)) b = Some id /\
      world_pose as_quat occs (Some id) = Ok (wb, qb) /\
      quat_text b out = Some (fmt_quat qb) /\
      last_by instanceId id meshes = Some m /\
      mesh_file_text b out = Some (filename m).
Proof.
  intros Hp H. apply main_Ok in H as (occs & l & Hoccs & Hl & ->).
  exists occs. split; [exact Hoccs|].
  assert (Hfiles : forall b, has_char "<" (mesh_file l b) = false
                             /\ has_char dquote (mesh_file l b) = false).
  { intro b.
    destruct (layout_orientations_and_meshes _ _ _ _ _ b Hl)
      as (id & wb & qb & m & _ & _ & _ & Hm & ->).
    apply last_by_In in Hm as [Hin _].
    unfold manifest_plain in Hp. rewrite Forall_forall in Hp. auto. }
  assert (Hfree : lt_free l).
  { unfold lt_free.
    pose proof (Hfiles Motor) as [Hm _]. pose proof (Hfiles Horn) as [Hh _].
    pose proof (Hfiles Joint1) as [H1 _]. pose proof (Hfiles Joint2) as [H2 _].
    auto. }
  intro b.
  destruct (layout_orientations_and_meshes _ _ _ _ _ b Hl)
    as (id & wb & qb & m & Hid & Hw & Hq & Hm & Hf).
  exists id, wb, qb, m. repeat split; auto.
  - rewrite (mjcf_quat_text l b Hfree), Hq. reflexivity.
  - rewrite (mjcf_mesh_file_text l b Hfree (proj2 (Hfiles b))), Hf. reflexivity.
Qed.

Lemma scene_orientations_and_meshes_sample :
  exists occs,
    occurrences_dict sample_assembly = Ok occs /\
    forall b, exists id wb qb m,
      body_id (named_ids (instances_dict sample_assembly)) b = Some id /\
      world_pose sample_as_quat occs (Some id) = Ok (wb, qb) /\
      quat_text b (mjcf sample_layout) = Some (fmt_quat qb) /\
      last_by instanceId id sample_meshes = Some m /\
      mesh_file_text b (mjcf sample_layout) = Some (filename m).
Proof.
  apply (scene_orientations_and_meshes sample_as_quat sample_assembly sample_meshes).
  - repeat constructor.
  - vm_compute. reflexivity.
Defined.

(** ** The last joint element *)

Lemma last_after_app (p a b r : string) :
  last_after p b = Some r -> last_after p (a ++ b) = Some r.
Proof.
  intro H. induction a as [|c a IH]; [exact H|].
  simpl. rewrite IH. reflexivity.
Qed.

Lemma last_after_none (c : ascii) (p s : string) :
  occ (String c p) s = 0 -> last_after (String c p) s = None.
Proof.
  induction s as [|a s IH]; [reflexivity|].
  cbn [occ last_after]. rewrite starts_with_strip.
  destruct (strip_prefix (String c p) (String a s)); [discriminate|].
  intro H. rewrite IH by exact H. reflexivity.
Qed.

Lemma last_after_single (c : ascii) (p s : string) :
  occ (String c p) s = 1 -> last_after (String c p) s = after (String c p) s.
Proof.
  induction s as [|a s IH]; [discriminate|].
  cbn [occ last_after after]. rewrite starts_with_strip.
  destruct (strip_prefix (String c p) (String a s)) as [r|].
  - intro H. rewrite last_after_none by (injection H as H; exact H). reflexivity.
  - intro H. rewrite IH by exact H.
    destruct (after (String c p) s); reflexivity.
Qed.

Lemma append_assoc (a b c : string) : (a ++ b) ++ c = a ++ b ++ c.
Proof.
  induction a as [|x a IH]; [reflexivity|]. simpl. rewrite IH. reflexivity.
Qed.

Lemma flatten_app (l1 l2 : list piece) :
  flatten (l1 ++ l2) = flatten l1 ++ flatten l2.
Proof.
  induction l1 as [|x l1 IH]; [reflexivity|].
  simpl. rewrite IH, append_assoc. reflexivity.
Qed.

Lemma last_element_flatten (tag : string) (l : list piece) (t : string) :
  numeric_fields (body_pieces l) = true ->
  lits_clean ("<" ++ tag ++ " ") (body_pieces l) = true ->
  lit_occ ("<" ++ tag ++ " ") (body_pieces l) = 1 ->
  element_in tag (body_pieces l) = Some t ->
  last_element tag (flatten l) = Some t.
Proof.
  intros Hn Hc Ho He.
  assert (Hf : fields_free "<" (body_pieces l))
    by (apply numeric_fields_free; [reflexivity | reflexivity | exact Hn]).
  unfold last_element.
  rewrite <- (firstn_skipn 8 l), flatten_app.
  fold (body_pieces l). simpl append in *.
  pose proof (occ_flatten _ _ _ Hf Hc) as Hocc. rewrite Ho in Hocc.
  pose proof (element_flatten tag _ t Hf Hc He) as Helt.
  unfold element in Helt. simpl append in Helt.
  destruct (after _ (flatten (body_pieces l))) as [r|] eqn:Ha; [|discriminate].
  rewrite (last_after_app _ _ _ r); [exact Helt|].
  rewrite last_after_single by exact Hocc. exact Ha.
Qed.

Lemma mjcf_last_joint_element (l : Layout) :
  last_element "joint" (mjcf l) = Some servo_joint.
Proof.
  unfold mjcf. apply last_element_flatten; vm_compute; reflexivity.
Qed.


(** ** The joint element *)

(** X2. Line 176.  The joint element of the template, a hinge named
    servo_rotation about (0, -1, 0) with range -1.5708 .. 1.5708 and damping
    0.01, is the last joint element of every written scene, whatever the
    input.  When no mesh file name contains the character that opens a
    tag, it is the only joint element of the scene, so the joint read back
    from the text has these constants: nothing of the mates (type,
    connector axis, limits) reaches it. *)
Theorem joint_element_is_constant
    (as_quat : list (list float) -> option quat)
    (root : RootAssembly) (meshes : list MeshEntry) (out : string) :
  main as_quat root meshes = Ok out ->
  contains servo_joint_tag out = true /\
  last_element "joint" out = Some servo_joint /\
  (manifest_clean meshes ->
   occ "<joint " out = 1 /\
   element "joint" out = Some servo_joint /\
   element_attribute "joint" "type" out = Some "hinge" /\
   element_attribute "joint" "axis" out = Some "0 -1 0" /\
   element_attribute "joint" "range" out = Some "-1.5708 1.5708" /\
   element_attribute "joint" "damping" out = Some "0.01" /\
   joint_axis out = Some [0; -1; 0]%float).
Proof.
  intro H. apply main_Ok in H as (occs & l & _ & Hl & ->).
  split; [apply mjcf_contains_joint|].
  split; [apply mjcf_last_joint_element|].
  intro Hc. pose proof (layout_lt_free _ _ _ _ _ Hc Hl) as Hfree.
  split; [apply mjcf_joint_count; exact Hfree|].
  unfold joint_axis, element_attribute.
  rewrite (mjcf_joint_element l Hfree).
  repeat split; reflexivity.
Qed.

Lemma joint_element_is_constant_sample :
  contains servo_joint_tag (mjcf sample_layout) = true /\
  last_element "joint" (mjcf sample_layout) = Some servo_joint /\
  occ "<joint " (mjcf sample_layout) = 1 /\
  element "joint" (mjcf sample_layout) = Some servo_joint /\
  element_attribute "joint" "type" (mjcf sample_layout) = Some "hinge" /\
  element_attribute "joint" "axis" (mjcf sample_layout) = Some "0 -1 0" /\
  element_attribute "joint" "range" (mjcf sample_layout) = Some "-1.5708 1.5708" /\
  element_attribute "joint" "damping" (mjcf sample_layout) = Some "0.01" /\
  joint_axis (mjcf sample_layout) = Some [0; -1; 0]%float.
Proof.
  assert (Hrun : main sample_as_quat sample_assembly sample_meshes
                 = Ok (mjcf sample_layout)) by (vm_compute; reflexivity).
  destruct (joint_element_is_constant sample_as_quat sample_assembly
              sample_meshes (mjcf sample_layout) Hrun) as (Hin & Hlast & Hone).
  split; [exact Hin|]. split; [exact Hlast|]. apply Hone. repeat constructor.
Defined.

(** ** Local positions in the scene *)

Lemma float_neq (a b : float) :
  PrimFloat.eqb a b = false -> PrimFloat.eqb a a = true -> a <> b.
Proof. intros H1 H2 E. subst b. congruence. Qed.

Lemma mjcf_body_pos_text (l : Layout) (b : body) :
  lt_free l -> body_pos_text b (mjcf l) = Some (fmt_pos (local_pos l b)).
Proof.
  intro H. pose proof (mjcf_fields_free l H) as Hfree.
  unfold body_pos_text, mjcf.
  destruct b;
    (apply (field_after_flatten "<" _ _ (FPos _) Hfree);
     [vm_compute; reflexivity | vm_compute; reflexivity | apply fmt_pos_no_quote]).
Qed.

(** C1.  In the scene that [main] writes, the position of every body other
    than the top one is the world position of its part minus the world
    position of the part of the enclosing body, component by component
    (binary64 subtraction), and that difference is what the [pos] attribute
    of the body holds in the text.  A part whose world position has finite
    coordinates and equals that of its parent has the offset (0, 0, 0),
    written 0.000000 0.000000 0.000000, whatever the two orientations are.
    Without finiteness the offset need not be zero. *)
Theorem C1_local_position_is_world_difference
    (as_quat : list (list float) -> option quat)
    (root : RootAssembly) (meshes : list MeshEntry) (out : string) :
  main as_quat root meshes = Ok out ->
  exists occs l,
    occurrences_dict root = Ok occs /\
    out = mjcf l /\
    forall b p, parent b = Some p ->
      exists wb qb wp qp,
        world_pose as_quat occs (body_id (named_ids (instances_dict root)) b)
          = Ok (wb, qb) /\
        world_pose as_quat occs (body_id (named_ids (instances_dict root)) p)
          = Ok (wp, qp) /\
        local_pos l b = vsub wb wp /\
        (manifest_clean meshes ->
         body_pos_text b out = Some (fmt_pos (vsub wb wp))) /\
        (finite3 wb = true -> wp = wb ->
         local_pos l b = vzero /\
         (manifest_clean meshes ->
          body_pos_text b out = Some "0.000000 0.000000 0.000000")).
Proof.
  intro H. apply main_Ok in H as (occs & l & Hoccs & Hl & ->).
  exists occs, l. split; [exact Hoccs|]. split; [reflexivity|].
  intros b p Hpar.
  destruct (layout_local_pos _ _ _ _ _ _ _ Hl Hpar)
    as (wb & qb & wp & qp & Hb & Hpp & Hloc).
  exists wb, qb, wp, qp.
  assert (Htext : manifest_clean meshes ->
                  body_pos_text b (mjcf l) = Some (fmt_pos (vsub wb wp))).
  { intro Hc. rewrite <- Hloc. apply mjcf_body_pos_text.
    eapply layout_lt_free; eassumption. }
  split; [exact Hb|]. split; [exact Hpp|]. split; [exact Hloc|].
  split; [exact Htext|].
  intros Hfin E. subst wp. split.
  - rewrite Hloc. apply vsub_diag. exact Hfin.
  - intro Hc. rewrite (Htext Hc), (vsub_diag _ Hfin). reflexivity.
Qed.

(** The horn of [stacked_assembly] stands where the motor stands, with
    another orientation, and its offset is zero. *)
Lemma C1_stacked_sample :
  exists occs l w qb qp,
    main turning_as_quat stacked_assembly sample_meshes = Ok (mjcf stacked_layout) /\
    occurrences_dict stacked_assembly = Ok occs /\
    mjcf stacked_layout = mjcf l /\
    world_pose turning_as_quat occs (Some "H") = Ok (w, qb) /\
    world_pose turning_as_quat occs (Some "M") = Ok (w, qp) /\
    qb <> qp /\
    local_pos l Horn = vzero /\
    body_pos_text Horn (mjcf stacked_layout) = Some "0.000000 0.000000 0.000000".
Proof.
  assert (Hrun : main turning_as_quat stacked_assembly sample_meshes
                 = Ok (mjcf stacked_layout)) by (vm_compute; reflexivity).
  destruct (C1_local_position_is_world_difference turning_as_quat
              stacked_assembly sample_meshes (mjcf stacked_layout) Hrun)
    as (occs & l & Hoccs & Hout & Hall).
  destruct (Hall Horn Motor eq_refl)
    as (wb & qb & wp & qp & Hb & Hp & _ & _ & Hzero).
  pose proof Hoccs as Hoccs'. vm_compute in Hoccs'. injection Hoccs' as <-.
  pose proof Hb as Hb'. vm_compute in Hb'. injection Hb' as <- <-.
  pose proof Hp as Hp'. vm_compute in Hp'. injection Hp' as <- <-.
  destruct (Hzero eq_refl eq_refl) as [Hz Htext].
  eexists _, l, _, _, _.
  split; [exact Hrun|]. split; [exact Hoccs|]. split; [exact Hout|].
  split; [exact Hb|]. split; [exact Hp|]. split; [|split; [exact Hz|]].
  - intro E. apply (f_equal (fun q : quat => let '(w, _, _, _) := q in w)) in E.
    revert E. apply float_neq; vm_compute; reflexivity.
  - apply Htext. repeat constructor.
Defined.

(** The claim without the finiteness of the coordinates fails: the motor
    and the horn of [infinite_assembly] have the same world position, and
    the offset of the horn is not zero; its first component is written as
    nan. *)
Lemma C1_infinite_positions :
  exists occs w qb qp,
    main sample_as_quat infinite_assembly sample_meshes = Ok (mjcf infinite_layout) /\
    occurrences_dict infinite_assembly = Ok occs /\
    layout sample_as_quat (instances_dict infinite_assembly) occs
      (mesh_map sample_meshes) = Ok infinite_layout /\
    world_pose sample_as_quat occs (Some "H") = Ok (w, qb) /\
    world_pose sample_as_quat occs (Some "M") = Ok (w, qp) /\
    local_pos infinite_layout Horn <> vzero /\
    body_pos_text Horn (mjcf infinite_layout) = Some "nan 0.000000 0.000000".
Proof.
  destruct (occurrences_dict infinite_assembly) as [occs|e] eqn:Hoccs;
    [|vm_compute in Hoccs; discriminate Hoccs].
  vm_compute in Hoccs. injection Hoccs as <-.
  eexists _, (infinity, 0, 0)%float, (1, 0, 0, 0)%float, (1, 0, 0, 0)%float.
  split; [vm_compute; reflexivity|].
  split; [reflexivity|].
  split; [vm_compute; reflexivity|].
  split; [vm_compute; reflexivity|].
  split; [vm_compute; reflexivity|].
  split; [|vm_compute; reflexivity].
  intro E.
  apply (f_equal (fun p : vec3 => let '(x, _, _) := p in PrimFloat.eqb x x)) in E.
  vm_compute in E. discriminate E.
Qed.

(** ** The axis of the joint *)

(** C2.  The axis of the joint that [main] writes is the constant
    (0, -1, 0) of the template, for every mate type and every connector
    axis: the joint element of line 176 is the last joint element of every
    written scene, a hinge with the axis 0 -1 0, and it is the only joint
    element when no mesh file name contains the character that opens a
    tag.  The axis of the connector of a cylindrical mate is read and
    printed (lines 89-94) and goes no further. *)
Theorem C2_joint_axis_is_constant
    (as_quat : list (list float) -> option quat)
    (root : RootAssembly) (meshes : list MeshEntry) (out : string) :
  main as_quat root meshes = Ok out ->
  contains servo_joint_tag out = true /\
  last_element_attribute "joint" "type" out = Some "hinge" /\
  last_element_attribute "joint" "axis" out = Some "0 -1 0" /\
  (manifest_clean meshes ->
   occ "<joint " out = 1 /\
   element_attribute "joint" "type" out = Some "hinge" /\
   element_attribute "joint" "axis" out = Some "0 -1 0" /\
   joint_axis out = Some [0; -1; 0]%float).
Proof.
  intro H. apply main_Ok in H as (occs & l & _ & Hl & ->).
  split; [apply mjcf_contains_joint|].
  unfold last_element_attribute. rewrite mjcf_last_joint_element.
  split; [reflexivity|]. split; [reflexivity|].
  intro Hc. pose proof (layout_lt_free _ _ _ _ _ Hc Hl) as Hfree.
  split; [apply mjcf_joint_count; exact Hfree|].
  unfold joint_axis, element_attribute.
  rewrite (mjcf_joint_element l Hfree).
  repeat split; reflexivity.
Qed.

Lemma C2_joint_axis_is_constant_sample :
  contains servo_joint_tag (mjcf sample_layout) = true /\
  last_element_attribute "joint" "type" (mjcf sample_layout) = Some "hinge" /\
  last_element_attribute "joint" "axis" (mjcf sample_layout) = Some "0 -1 0" /\
  occ "<joint " (mjcf sample_layout) = 1 /\
  element_attribute "joint" "type" (mjcf sample_layout) = Some "hinge" /\
  element_attribute "joint" "axis" (mjcf sample_layout) = Some "0 -1 0" /\
  joint_axis (mjcf sample_layout) = Some [0; -1; 0]%float.
Proof.
  assert (Hrun : main sample_as_quat revolute_assembly sample_meshes
                 = Ok (mjcf sample_layout)) by (vm_compute; reflexivity).
  destruct (C2_joint_axis_is_constant sample_as_quat revolute_assembly
              sample_meshes (mjcf sample_layout) Hrun) as (Hin & Hty & Hax & Hone).
  split; [exact Hin|]. split; [exact Hty|]. split; [exact Hax|].
  apply Hone. repeat constructor.
Defined.

Lemma connector_axes_mate (root : RootAssembly) (type : string)
    (axis : list float) (a b : string) :
  features root = [mate type axis a b] -> connector_axes root axis.
Proof.
  intros Hf fd e Hfd He. rewrite Hf in Hfd. destruct Hfd as [<-|[]].
  destruct He as [<-|[<-|[]]]; reflexivity.
Qed.

(** A revolute mate and a cylindrical mate whose connectors have the axis
    (0, 1, 0) both give a scene whose joint has the axis (0, -1, 0). *)
Lemma C2_axis_differs_from_connector :
  (connector_axes revolute_assembly [0; 1; 0]%float /\
   exists out axis,
     main sample_as_quat revolute_assembly sample_meshes = Ok out /\
     joint_axis out = Some axis /\
     vec_eqb axis [0; 1; 0]%float = false) /\
  (connector_axes sample_assembly [0; 1; 0]%float /\
   exists out axis,
     main sample_as_quat sample_assembly sample_meshes = Ok out /\
     joint_axis out = Some axis /\
     vec_eqb axis [0; 1; 0]%float = false).
Proof.
  split; (split; [eapply connector_axes_mate; reflexivity|]);
    exists (mjcf sample_layout), [0; -1; 0]%float;
    repeat split; vm_compute; reflexivity.
Qed.

(** ** One joint, one actuator *)





(** ** Limits of the mates *)

Lemma for_each_ext {A} (f g : A -> result unit) (l : list A) :
  (forall x, f x = g x) -> for_each f l = for_each g l.
Proof.
  intro H. induction l as [|x l IH]; [reflexivity|].
  simpl. rewrite H, IH. reflexivity.
Qed.

Lemma for_each_map {A B} (g : A -> B) (f : B -> result unit) (l : list A) :
  for_each f (map g l) = for_each (fun x => f (g x)) l.
Proof.
  induction l as [|x l IH]; [reflexivity|]. simpl. rewrite IH. reflexivity.
Qed.

Lemma report_mates_limits (insts : dict Instance) (l : list FeatureData) :
  for_each (report_mate insts) l = for_each (report_mate insts) (map erase_limits l).
Proof. rewrite for_each_map. apply for_each_ext. intro fd. reflexivity. Qed.

Lemma main_same_but_limits (as_quat : list (list float) -> option quat)
    (root root' : RootAssembly) (meshes : list MeshEntry) :
  same_but_limits root root' ->
  main as_quat root meshes = main as_quat root' meshes.
Proof.
  destruct root as [ins ocs fs], root' as [ins' ocs' fs'].
  intros (Hi & Ho & Hf). cbn [instances occurrences features] in Hi, Ho, Hf.
  subst ins' ocs'. unfold main. cbn [features].
  rewrite (report_mates_limits _ fs), Hf, <- (report_mates_limits _ fs').
  reflexivity.
Qed.

(** C10.  Two assemblies that differ only in the limits of their mates run
    to the same result, the same scene text or the same exception.  The
    joint element of that scene is the one of the template, with the range
    -1.5708 1.5708 and the damping 0.01: it is the last joint element of
    every written scene, and it is the only joint element when no mesh file
    name contains the character that opens a tag. *)
Theorem C10_limits_do_not_reach_the_joint
    (as_quat : list (list float) -> option quat)
    (root root' : RootAssembly) (meshes : list MeshEntry) :
  same_but_limits root root' ->
  main as_quat root meshes = main as_quat root' meshes /\
  forall out, main as_quat root meshes = Ok out ->
    contains servo_joint_tag out = true /\
    last_element_attribute "joint" "range" out = Some "-1.5708 1.5708" /\
    last_element_attribute "joint" "damping" out = Some "0.01" /\
    (manifest_clean meshes ->
     occ "<joint " out = 1 /\
     element_attribute "joint" "range" out = Some "-1.5708 1.5708" /\
     element_attribute "joint" "damping" out = Some "0.01").
Proof.
  intro Hs. split; [apply main_same_but_limits; exact Hs|].
  intros out H. apply main_Ok in H as (occs & l & _ & Hl & ->).
  split; [apply mjcf_contains_joint|].
  unfold last_element_attribute. rewrite mjcf_last_joint_element.
  split; [reflexivity|]. split; [reflexivity|].
  intro Hc. pose proof (layout_lt_free _ _ _ _ _ Hc Hl) as Hfree.
  split; [apply mjcf_joint_count; exact Hfree|].
  unfold element_attribute. rewrite (mjcf_joint_element l Hfree).
  split; reflexivity.
Qed.

Lemma C10_limits_do_not_reach_the_joint_sample :
  exists out,
    main sample_as_quat
      (with_features sample_assembly
         (map (with_limits (-0.5) 0.5) (features sample_assembly))) sample_meshes
    = Ok out /\
    main sample_as_quat
      (with_features sample_assembly
         (map (with_limits (-3) 3) (features sample_assembly))) sample_meshes
    = Ok out /\
    contains servo_joint_tag out = true /\
    last_element_attribute "joint" "range" out = Some "-1.5708 1.5708" /\
    last_element_attribute "joint" "damping" out = Some "0.01" /\
    occ "<joint " out = 1 /\
    element_attribute "joint" "range" out = Some "-1.5708 1.5708" /\
    element_attribute "joint" "damping" out = Some "0.01".
Proof.
  destruct (C10_limits_do_not_reach_the_joint sample_as_quat
              (with_features sample_assembly
                 (map (with_limits (-0.5) 0.5) (features sample_assembly)))
              (with_features sample_assembly
                 (map (with_limits (-3) 3) (features sample_assembly)))
              sample_meshes) as [E H].
  - repeat split.
  - assert (H1 : main sample_as_quat
                   (with_features sample_assembly
                      (map (with_limits (-0.5) 0.5) (features sample_assembly)))
                   sample_meshes = Ok (mjcf sample_layout))
      by (vm_compute; reflexivity).
    exists (mjcf sample_layout).
    split; [exact H1|]. split; [rewrite <- E; exact H1|].
    destruct (H _ H1) as (Hc & Hr & Hd & Hm).
    split; [exact Hc|]. split; [exact Hr|]. split; [exact Hd|].
    apply Hm. repeat constructor.
Defined.

(** ** A part without a mesh *)






(** ** The base part and the lookups that end the run *)









(** ** A mate type outside the mapping *)

Lemma for_each_app {A} (body : A -> result unit) (l1 l2 : list A) :
  for_each body (l1 ++ l2) = for_each body l1 ;;; for_each body l2.
Proof.
  induction l1 as [|x l1 IH]; [reflexivity|].
  simpl. destruct (body x) as [[]|e]; [exact IH | reflexivity].
Qed.

Lemma report_mate_other (insts : dict Instance) (fd : FeatureData) :
  mateType fd <> "CYLINDRICAL" -> report_mate insts fd = Ok tt.
Proof.
  intro H. unfold report_mate.
  destruct (String.eqb_spec (mateType fd) "CYLINDRICAL"); [contradiction|reflexivity].
Qed.

Lemma main_without_other_mate (as_quat : list (list float) -> option quat)
    (root : RootAssembly) (meshes : list MeshEntry)
    (fs1 fs2 : list FeatureData) (fd : FeatureData) :
  mateType fd <> "CYLINDRICAL" ->
  main as_quat (with_features root (fs1 ++ fd :: fs2)) meshes
  = main as_quat (with_features root (fs1 ++ fs2)) meshes.
Proof.
  intro H. destruct root as [ins ocs fs]. unfold main, with_features.
  cbn [features instances occurrences].
  rewrite !for_each_app. cbn [for_each].
  rewrite (report_mate_other _ fd H). reflexivity.
Qed.

Lemma analyze_mates_app (l1 l2 : list Feature) :
  joints (analyze_mates (l1 ++ l2))
    = (joints (analyze_mates l1) ++ joints (analyze_mates l2))%list /\
  potential_issues (analyze_mates (l1 ++ l2))
    = (potential_issues (analyze_mates l1)
       ++ potential_issues (analyze_mates l2))%list.
Proof.
  unfold analyze_mates. rewrite !analyze_fold. cbn [joints potential_issues app].
  rewrite !filter_app, !map_app. split; reflexivity.
Qed.

(** C8.  A mate that is not suppressed and whose type tag is outside the
    mapping adds one diagnostic and one entry to the joints of the analysis,
    the entry carrying the type unknown; the entries and diagnostics of the
    other features are unchanged and nothing ends the analysis.  In the
    converter a mate with such a tag changes nothing: the run with it is the
    run without it, the same scene text or the same exception. *)
Theorem C8_unknown_mate_is_diagnosed
    (l1 l2 : list Feature) (feat : Feature)
    (as_quat : list (list float) -> option quat)
    (root : RootAssembly) (meshes : list MeshEntry)
    (fs1 fs2 : list FeatureData) (fd : FeatureData) :
  active_mate feat = true ->
  ~ In (mate_type_of feat) mapped_types ->
  ~ In (mateType fd) mapped_types ->
  potential_issues (analyze_mates (l1 ++ feat :: l2))
    = (potential_issues (analyze_mates l1)
       ++ issue_of feat :: potential_issues (analyze_mates l2))%list /\
  joints (analyze_mates (l1 ++ feat :: l2))
    = (joints (analyze_mates l1)
       ++ joint_info_of feat :: joints (analyze_mates l2))%list /\
  mujoco_type (joint_info_of feat) = Some "unknown" /\
  main as_quat (with_features root (fs1 ++ fd :: fs2)) meshes
  = main as_quat (with_features root (fs1 ++ fs2)) meshes.
Proof.
  intros Hact Hun Hfd.
  assert (Hc : mujoco (classify (mate_type_of feat)) = Some "unknown").
  { unfold classify. rewrite (classify_unmapped _ Hun). reflexivity. }
  assert (Hu : is_unknown feat = true).
  { unfold is_unknown. rewrite Hc. reflexivity. }
  assert (Hone : analyze_mates [feat]
                 = {| joints := [joint_info_of feat];
                      potential_issues := [issue_of feat] |}).
  { unfold analyze_mates. rewrite analyze_fold. simpl. rewrite Hact, Hu.
    reflexivity. }
  destruct (analyze_mates_app l1 (feat :: l2)) as [Hj Hi].
  destruct (analyze_mates_app [feat] l2) as [Hj' Hi'].
  change ([feat] ++ l2)%list with (feat :: l2) in Hj', Hi'.
  rewrite Hone in Hj', Hi'. cbn [joints potential_issues app] in Hj', Hi'.
  rewrite Hj, Hi, Hj', Hi'.
  split; [reflexivity|]. split; [reflexivity|]. split; [exact Hc|].
  apply main_without_other_mate. intro E. apply Hfd. rewrite E.
  unfold mapped_types. simpl. tauto.
Qed.

Lemma C8_unknown_mate_is_diagnosed_sample :
  potential_issues (analyze_mates [screw_mate])
    = ["Unknown mate type: SCREW in Screw 1"] /\
  List.length (joints (analyze_mates [screw_mate])) = 1%nat /\
  main sample_as_quat
    (with_features sample_assembly
       (features sample_assembly ++ [mate "SCREW" [0; 0; 1]%float "A" "B"]))
    sample_meshes
  = Ok (mjcf sample_layout).
Proof.
  destruct (C8_unknown_mate_is_diagnosed [] [] screw_mate
              sample_as_quat sample_assembly sample_meshes
              (features sample_assembly) []
              (mate "SCREW" [0; 0; 1]%float "A" "B"))
    as (Hi & Hj & _ & Hm).
  - reflexivity.
  - unfold mapped_types. simpl. intuition discriminate.
  - unfold mapped_types. simpl. intuition discriminate.
  - cbn [app] in Hi, Hj. split; [|split].
    + rewrite Hi. reflexivity.
    + rewrite Hj. reflexivity.
    + rewrite Hm. vm_compute. reflexivity.
Defined.

(** A screw mate, whose tag is outside the mapping, has an entry among the
    joints of the analysis, counted in the total and in the distribution of
    the mate types. *)
Lemma C8_unknown_mate_has_joint_entry :
  ~ In "SCREW" mapped_types /\
  joints (analyze_mates [screw_mate])
    = [ {| ji_name := "Screw 1"; onshape_type := "SCREW";
           mujoco_type := Some "unknown";
           ji_description := "Unknown mate type";
           limits := []; has_limits := false |} ] /\
  List.length (joints (analyze_mates [screw_mate])) = 1%nat /\
  mate_type_counts (joints (analyze_mates [screw_mate])) = [("SCREW", 1%nat)].
Proof.
  split; [unfold mapped_types; simpl; intuition discriminate|].
  repeat split.
Qed.


(** ** The format of the computed fields *)

Lemma fmt6_six_decimals (x : float) : six_decimals x.
Proof.
  unfold six_decimals.
  destruct (is_finite x) eqn:E; [apply fmt6_fixed; assumption|].
  unfold is_finite in E. unfold fmt6.
  destruct (Prim2SF x) as [s|s| |s m e]; try discriminate; [destruct s|]; auto.
Qed.

Lemma sample_horn_offset (as_quat : list (list float) -> option quat)
    (meshes : list MeshEntry) (occs : dict Occurrence) (l : Layout) :
  occurrences_dict sample_assembly = Ok occs ->
  layout as_quat (instances_dict sample_assembly) occs (mesh_map meshes) = Ok l ->
  local_pos l Horn = (tenth, 0, 0)%float.
Proof.
  intros Hoccs Hl.
  destruct (layout_local_pos _ _ _ _ _ Horn Motor Hl eq_refl)
    as (wb & qb & wp & qp & Hb & Hp & ->).
  vm_compute in Hoccs. injection Hoccs as <-.
  vm_compute in Hb, Hp.
  destruct (as_quat _) as [[[[x y] z] w]|]; [|discriminate Hb].
  injection Hb as <- _. injection Hp as <- _.
  vm_compute. reflexivity.
Qed.

(** C9.  Every position and orientation that the converter computes, the
    position of each of the four bodies and the orientation of each of the
    four parts, stands in the scene as numbers separated by one space, each
    written by the six-decimal format: a finite number with an optional
    minus sign, its integer digits, a point and six decimals, and a number
    that is not finite as nan, inf or -inf (every mesh file name being
    free of the character that opens a tag).  For the sample assembly, with
    the motor at the origin and the horn at (0.1, 0, 0), the position of
    the horn body is 0.100000 0.000000 0.000000. *)
Theorem C9_computed_fields_have_six_decimals
    (as_quat : list (list float) -> option quat)
    (root : RootAssembly) (meshes : list MeshEntry) (out : string) :
  manifest_clean meshes ->
  main as_quat root meshes = Ok out ->
  exists occs l,
    occurrences_dict root = Ok occs /\
    layout as_quat (instances_dict root) occs (mesh_map meshes) = Ok l /\
    (forall b, exists x y z qw qx qy qz,
       local_pos l b = (x, y, z) /\
       local_quat l b = (qw, qx, qy, qz) /\
       body_pos_text b out = Some (fmt6 x ++ " " ++ fmt6 y ++ " " ++ fmt6 z) /\
       quat_text b out
         = Some (fmt6 qw ++ " " ++ fmt6 qx ++ " " ++ fmt6 qy ++ " " ++ fmt6 qz) /\
       Forall six_decimals [x; y; z; qw; qx; qy; qz]) /\
    (root = sample_assembly ->
     body_pos_text Horn out = Some "0.100000 0.000000 0.000000").
Proof.
  intros Hc H. apply main_Ok in H as (occs & l & Hoccs & Hl & ->).
  pose proof (layout_lt_free _ _ _ _ _ Hc Hl) as Hfree.
  exists occs, l. split; [exact Hoccs|]. split; [exact Hl|]. split.
  - intro b.
    destruct (local_pos l b) as [[x y] z] eqn:Ep.
    destruct (local_quat l b) as [[[qw qx] qy] qz] eqn:Eq.
    exists x, y, z, qw, qx, qy, qz.
    split; [reflexivity|]. split; [reflexivity|].
    split; [rewrite (mjcf_body_pos_text l b Hfree), Ep; reflexivity|].
    split; [rewrite (mjcf_quat_text l b Hfree), Eq; reflexivity|].
    repeat constructor; apply fmt6_six_decimals.
  - intros ->. rewrite (mjcf_body_pos_text l Horn Hfree).
    rewrite (sample_horn_offset _ _ _ _ Hoccs Hl). vm_compute. reflexivity.
Qed.

Lemma C9_computed_fields_have_six_decimals_sample :
  body_pos_text Horn (mjcf sample_layout) = Some "0.100000 0.000000 0.000000" /\
  exists x y z qw qx qy qz,
    body_pos_text Joint1 (mjcf sample_layout)
      = Some (fmt6 x ++ " " ++ fmt6 y ++ " " ++ fmt6 z) /\
    quat_text Joint1 (mjcf sample_layout)
      = Some (fmt6 qw ++ " " ++ fmt6 qx ++ " " ++ fmt6 qy ++ " " ++ fmt6 qz) /\
    Forall six_decimals [x; y; z; qw; qx; qy; qz].
Proof.
  destruct (C9_computed_fields_have_six_decimals sample_as_quat sample_assembly
              sample_meshes (mjcf sample_layout))
    as (occs & l & _ & _ & Hall & Hs).
  - repeat constructor.
  - vm_compute. reflexivity.
  - split; [exact (Hs eq_refl)|].
    destruct (Hall Joint1) as (x & y & z & qw & qx & qy & qz & _ & _ & Hp & Hq & Hf).
    exists x, y, z, qw, qx, qy, qz. repeat split; assumption.
Defined.

(** The coordinates of [far_assembly] are finite, and the position of the
    horn body, the difference of two of them, is written with -inf.  The
    positions that the template itself holds, such as the one of the ground,
    have no decimals. *)
Lemma C9_fields_without_six_decimals :
  exists out,
    main sample_as_quat far_assembly sample_meshes = Ok out /\
    forallb (fun o => forallb is_finite (occ_transform o))
            (occurrences far_assembly) = true /\
    body_pos_text Horn out = Some "-inf 0.000000 0.000000" /\
    is_fixed6 "-inf" = false /\
    element_attribute "geom" "pos" out = Some "0 0 0" /\
    is_fixed6 "0" = false.
Proof.
  eexists. split; [vm_compute; reflexivity|].
  repeat split; vm_compute; reflexivity.
Qed.
